(** * live-chat-app: the Ably token endpoint, [src/app/api/ably/route.ts]

    The route has three functions: [generateCapability] (role claim to
    channel permissions), [createToken] (a JWT signed with the Ably API key,
    built with jose's [SignJWT]) and the [GET] handler that ties them to the
    session.  They are embedded here together with the parts of the platform
    they call: [String.prototype.split], [TextEncoder], [JSON.stringify],
    jose's claim setters and compact HS256 signature, the clock.

    Texts are [string]s holding UTF-8, binary data is [list byte]. *)

From Stdlib Require Import ZArith NArith List String Ascii Bool Lia.
From Stdlib Require Import DecimalString DecimalZ.
From Stdlib Require DecimalPos.
From Stdlib.Strings Require Import Byte.
Import ListNotations.
Open Scope string_scope.
Set Warnings "-register-all".

(** ** JavaScript values and the string operations the route uses *)

Module JS.

(** The values the route builds and serialises.  Numbers are the integers
    the route produces (epoch seconds); an object is its own enumerable
    properties in enumeration order. *)
Inductive value : Type :=
| VUndefined
| VNull
| VBool (b : bool)
| VNum (n : Z)
| VStr (s : string)
| VArr (items : list value)
| VObj (members : list (string * value)).

Definition dquote : ascii := "034"%char.
Definition backslash : ascii := "092"%char.
Definition colon : ascii := ":"%char.
Definition dot : ascii := "."%char.

(** [ToBoolean] on a string or a missing value ([undefined], [null]). *)
Definition truthy (v : option string) : bool :=
  match v with
  | Some s => negb (s =? "")
  | None => false
  end.

(** Every piece of [s] between occurrences of the one-character separator;
    there is always at least one piece. *)
Fixpoint pieces (sep : ascii) (s : string) : list string :=
  match s with
  | EmptyString => [EmptyString]
  | String c r =>
      if Ascii.eqb c sep then EmptyString :: pieces sep r
      else match pieces sep r with
           | p :: ps => String c p :: ps
           | [] => [String c EmptyString]
           end
  end.

(** Whether the character occurs in the text. *)
Fixpoint has_char (c : ascii) (s : string) : bool :=
  match s with
  | EmptyString => false
  | String a r => Ascii.eqb a c || has_char c r
  end.

(** [s.split(sep, limit)] for a one-character separator: the pieces, cut
    off after [limit] of them. *)
Definition split (s : string) (sep : ascii) (limit : nat) : list string :=
  firstn limit (pieces sep s).

(** [new TextEncoder().encode(x)]: the UTF-8 bytes of the text, none for
    [undefined] (the argument defaults to the empty string). *)
Definition encode (x : option string) : list byte :=
  match x with
  | Some s => list_byte_of_string s
  | None => []
  end.

(** [{ ...obj, key: v }]: an own key keeps its place, a new one goes last. *)
Fixpoint set_member (key : string) (v : value) (obj : list (string * value))
  : list (string * value) :=
  match obj with
  | [] => [(key, v)]
  | (k, x) :: rest =>
      if k =? key then (k, v) :: rest else (k, x) :: set_member key v rest
  end.

(** [obj[key]]; the first entry decides, [None] when there is none. *)
Fixpoint get_member (key : string) (obj : list (string * value)) : option value :=
  match obj with
  | [] => None
  | (k, x) :: rest => if k =? key then Some x else get_member key rest
  end.

End JS.

(** ** JSON texts: [JSON.stringify] and [JSON.parse] *)

Module JSON.
Import JS.

Definition hex_digit (n : N) : ascii :=
  nth (N.to_nat n) (list_ascii_of_string "0123456789abcdef") "0"%char.

(** One character of a quoted JSON string (QuoteJSONString): the short
    escapes, [\u00xx] for the other control characters, itself otherwise. *)
Definition escape_char (c : ascii) : string :=
  let n := N_of_ascii c in
  if (n =? 8)%N then "\b"
  else if (n =? 9)%N then "\t"
  else if (n =? 10)%N then "\n"
  else if (n =? 12)%N then "\f"
  else if (n =? 13)%N then "\r"
  else if (n =? 34)%N then String backslash (String dquote "")
  else if (n =? 92)%N then String backslash (String backslash "")
  else if (n <? 32)%N then
    "\u00" ++ String (hex_digit (n / 16)) (String (hex_digit (n mod 16)) "")
  else String c "".

Fixpoint escape (s : string) : string :=
  match s with
  | EmptyString => EmptyString
  | String c r => escape_char c ++ escape r
  end.

Definition quote (s : string) : string :=
  String dquote (escape s ++ String dquote "").

(** Integers print in decimal, as JavaScript prints a safe integer. *)
Definition number_to_string (n : Z) : string :=
  NilZero.string_of_int (Z.to_int n).

(** SerializeJSONProperty: [None] stands for [undefined] (the value has no
    JSON text).  In an array such an item is written [null], in an object
    its member is left out. *)
Fixpoint serialize (v : value) : option string :=
  match v with
  | VUndefined => None
  | VNull => Some "null"
  | VBool true => Some "true"
  | VBool false => Some "false"
  | VNum n => Some (number_to_string n)
  | VStr s => Some (quote s)
  | VArr items =>
      let item x := match serialize x with Some t => t | None => "null" end in
      Some ("[" ++ String.concat "," (map item items) ++ "]")
  | VObj members =>
      let member (kx : string * value) :=
        match serialize (snd kx) with
        | Some t => [quote (fst kx) ++ ":" ++ t]
        | None => []
        end in
      Some ("{" ++ String.concat "," (flat_map member members) ++ "}")
  end.

(** [JSON.stringify(v)] with no replacer and no indent. *)
Definition stringify (v : value) : option string := serialize v.

(** The value [JSON.parse(JSON.stringify(v))] is: [undefined] items become
    [null], [undefined] members disappear. *)
Fixpoint clean (v : value) : value :=
  match v with
  | VArr items =>
      VArr (map (fun x => match x with VUndefined => VNull | _ => clean x end) items)
  | VObj members =>
      VObj (flat_map (fun kx : string * value =>
                        match snd kx with
                        | VUndefined => []
                        | _ => [(fst kx, clean (snd kx))]
                        end) members)
  | _ => v
  end.

(** *** Parsing *)

Definition hex_value (c : ascii) : option N :=
  let n := N_of_ascii c in
  if ((48 <=? n) && (n <=? 57))%N then Some (n - 48)%N
  else if ((97 <=? n) && (n <=? 102))%N then Some (n - 87)%N
  else if ((65 <=? n) && (n <=? 70))%N then Some (n - 55)%N
  else None.

Definition hex4 (a b c d : ascii) : option N :=
  match hex_value a, hex_value b, hex_value c, hex_value d with
  | Some x, Some y, Some z, Some w => Some (((x * 16 + y) * 16 + z) * 16 + w)%N
  | _, _, _, _ => None
  end.

(** The UTF-8 bytes of a code point of the basic plane; a surrogate has
    none on its own. *)
Definition utf8 (n : N) : option string :=
  if (n <? 128)%N then Some (String (ascii_of_N n) "")
  else if (n <? 2048)%N then
    Some (String (ascii_of_N (192 + n / 64)) (String (ascii_of_N (128 + n mod 64)) ""))
  else if ((55296 <=? n) && (n <=? 57343))%N then None
  else
    Some (String (ascii_of_N (224 + n / 4096))
            (String (ascii_of_N (128 + (n / 64) mod 64))
               (String (ascii_of_N (128 + n mod 64)) ""))).

Definition unescape (e : ascii) : option ascii :=
  if Ascii.eqb e dquote then Some dquote
  else if Ascii.eqb e backslash then Some backslash
  else if Ascii.eqb e "/" then Some "/"%char
  else if Ascii.eqb e "b" then Some "008"%char
  else if Ascii.eqb e "t" then Some "009"%char
  else if Ascii.eqb e "n" then Some "010"%char
  else if Ascii.eqb e "f" then Some "012"%char
  else if Ascii.eqb e "r" then Some "013"%char
  else None.

Definition prepend (p : string) (r : option (string * string)) : option (string * string) :=
  match r with
  | Some (s, rest) => Some (p ++ s, rest)
  | None => None
  end.

(** The characters of a string up to its closing quote, escapes undone:
    the string's text and what follows the quote. *)
Fixpoint parse_chars (s : string) : option (string * string) :=
  match s with
  | EmptyString => None
  | String c r =>
      if Ascii.eqb c dquote then Some (EmptyString, r)
      else if Ascii.eqb c backslash then
        match r with
        | EmptyString => None
        | String e r1 =>
            match unescape e with
            | Some c' => prepend (String c' "") (parse_chars r1)
            | None =>
                if Ascii.eqb e "u" then
                  match r1 with
                  | String h1 (String h2 (String h3 (String h4 r2))) =>
                      match hex4 h1 h2 h3 h4 with
                      | Some n =>
                          match utf8 n with
                          | Some p => prepend p (parse_chars r2)
                          | None => None
                          end
                      | None => None
                      end
                  | _ => None
                  end
                else None
            end
        end
      else if (N_of_ascii c <? 32)%N then None
      else prepend (String c "") (parse_chars r)
  end.

Definition is_number_char (c : ascii) : bool :=
  let n := N_of_ascii c in
  (n =? 45)%N || ((48 <=? n) && (n <=? 57))%N.

(** The longest prefix made of [-] and digits, and the rest. *)
Fixpoint span_number (s : string) : string * string :=
  match s with
  | EmptyString => (EmptyString, EmptyString)
  | String c r =>
      if is_number_char c then
        let (n, rest) := span_number r in (String c n, rest)
      else (EmptyString, s)
  end.

(** A number ends where the text ends or a character that is no part of a
    number follows. *)
Definition delimited (rest : string) : bool :=
  match rest with
  | EmptyString => true
  | String c _ => negb (is_number_char c)
  end.

(** An integer in the form [number_to_string] writes (no sign for zero, no
    leading zero); fractions and exponents are outside the fragment. *)
Definition parse_number (s : string) : option (value * string) :=
  let (chunk, rest) := span_number s in
  match NilZero.int_of_string chunk with
  | Some d =>
      let n := Z.of_int d in
      if number_to_string n =? chunk then Some (VNum n, rest) else None
  | None => None
  end.

Fixpoint strip_prefix (p s : string) : option string :=
  match p, s with
  | EmptyString, _ => Some s
  | String a p', String b s' => if Ascii.eqb a b then strip_prefix p' s' else None
  | String _ _, EmptyString => None
  end.

Definition literal (word : string) (v : value) (s : string) : option (value * string) :=
  match strip_prefix word s with
  | Some rest => Some (v, rest)
  | None => None
  end.

(** Compact JSON, the form [stringify] writes: no white space between
    tokens.  [fuel] bounds the nesting and the number of items read; the
    length of the text is enough for every text [stringify] writes. *)
Fixpoint parse_value (fuel : nat) (s : string) : option (value * string) :=
  match fuel with
  | O => None
  | S fuel' =>
      match s with
      | EmptyString => None
      | String c r =>
          if Ascii.eqb c "{" then
            match r with
            | String "}" r' => Some (VObj [], r')
            | _ =>
                match parse_members fuel' r with
                | Some (ms, rest) => Some (VObj ms, rest)
                | None => None
                end
            end
          else if Ascii.eqb c "[" then
            match r with
            | String "]" r' => Some (VArr [], r')
            | _ =>
                match parse_items fuel' r with
                | Some (xs, rest) => Some (VArr xs, rest)
                | None => None
                end
            end
          else if Ascii.eqb c dquote then
            match parse_chars r with
            | Some (t, rest) => Some (VStr t, rest)
            | None => None
            end
          else if Ascii.eqb c "t" then literal "true" (VBool true) s
          else if Ascii.eqb c "f" then literal "false" (VBool false) s
          else if Ascii.eqb c "n" then literal "null" VNull s
          else parse_number s
      end
  end
with parse_members (fuel : nat) (s : string) : option (list (string * value) * string) :=
  match fuel with
  | O => None
  | S fuel' =>
      match s with
      | String c r =>
          if Ascii.eqb c dquote then
            match parse_chars r with
            | Some (k, String ":" r1) =>
                match parse_value fuel' r1 with
                | Some (x, String "," r2) =>
                    match parse_members fuel' r2 with
                    | Some (ms, rest) => Some ((k, x) :: ms, rest)
                    | None => None
                    end
                | Some (x, String "}" r2) => Some ([(k, x)], r2)
                | _ => None
                end
            | _ => None
            end
          else None
      | EmptyString => None
      end
  end
with parse_items (fuel : nat) (s : string) : option (list value * string) :=
  match fuel with
  | O => None
  | S fuel' =>
      match parse_value fuel' s with
      | Some (x, String "," r) =>
          match parse_items fuel' r with
          | Some (xs, rest) => Some (x :: xs, rest)
          | None => None
          end
      | Some (x, String "]" r) => Some ([x], r)
      | _ => None
      end
  end.

(** What an item of an array and a member of an object are written as,
    and which members are written at all. *)
Definition item_text (x : value) : string :=
  match serialize x with Some t => t | None => "null" end.

Definition defined (kx : string * value) : bool :=
  match snd kx with VUndefined => false | _ => true end.

Definition member_text (kx : string * value) : string :=
  quote (fst kx) ++ ":" ++ item_text (snd kx).

(** The text of [v] followed by anything that ends a number reads back as
    [v] cleaned, with fuel for the length of the text. *)
Definition reads_back (v : value) : Prop :=
  forall text, serialize v = Some text ->
  forall fuel rest, String.length text <= fuel -> delimited rest = true ->
  parse_value fuel (text ++ rest) = Some (clean v, rest).

(** [JSON.parse(s)] on the compact fragment.  [None] is a SyntaxError, or
    a text outside the fragment (white space between tokens, fractions,
    exponents, escaped surrogates).  The members of an object come in the
    order of the text (an object has no two members of one name). *)
Definition parse (s : string) : option value :=
  match parse_value (String.length s) s with
  | Some (v, EmptyString) => Some v
  | _ => None
  end.

End JSON.

(** ** SHA-256 and HMAC (FIPS 180-4, RFC 2104) on 32-bit words held in [N] *)

Module SHA256.
Local Open Scope N_scope.

Definition mask32 : N := 2 ^ 32 - 1.
Definition add32 (x y : N) : N := N.land (x + y) mask32.
Definition rotr (n x : N) : N :=
  N.lor (N.shiftr x n) (N.land (N.shiftl x (32 - n)) mask32).
Definition shr (n x : N) : N := N.shiftr x n.
Definition not32 (x : N) : N := N.lxor x mask32.

Definition Ch (x y z : N) : N := N.lxor (N.land x y) (N.land (not32 x) z).
Definition Maj (x y z : N) : N :=
  N.lxor (N.lxor (N.land x y) (N.land x z)) (N.land y z).
Definition Sigma0 (x : N) : N := N.lxor (N.lxor (rotr 2 x) (rotr 13 x)) (rotr 22 x).
Definition Sigma1 (x : N) : N := N.lxor (N.lxor (rotr 6 x) (rotr 11 x)) (rotr 25 x).
Definition sigma0 (x : N) : N := N.lxor (N.lxor (rotr 7 x) (rotr 18 x)) (shr 3 x).
Definition sigma1 (x : N) : N := N.lxor (N.lxor (rotr 17 x) (rotr 19 x)) (shr 10 x).

(** The constants are fractional parts of roots of the first primes. *)
Definition is_prime (p : N) : bool :=
  forallb (fun d => negb (p mod (N.of_nat d) =? 0)) (seq 2 (N.to_nat p - 2)).

Definition primes : list N :=
  Eval vm_compute in filter is_prime (map N.of_nat (seq 2 310)).

(** The integer [k]-th root of [n] (for roots below 2^40), bit by bit. *)
Definition iroot (k n : N) : N :=
  fold_left (fun r i => let r' := r + 2 ^ (N.of_nat i) in if r' ^ k <=? n then r' else r)
            (rev (seq 0 40)) 0.

Definition K : list N :=
  Eval vm_compute in map (fun p => N.land (iroot 3 (p * 2 ^ 96)) mask32) primes.

Definition H0 : list N :=
  Eval vm_compute in map (fun p => N.land (iroot 2 (p * 2 ^ 64)) mask32) (firstn 8 primes).

(** Padding: a one bit, zeros up to 56 modulo 64 bytes, the bit length on
    eight bytes. *)
Definition be_bytes (count : nat) (x : N) : list N :=
  map (fun i => N.land (N.shiftr x (8 * N.of_nat i)) 255) (rev (seq 0 count)).

Definition pad (msg : list N) : list N :=
  let len := List.length msg in
  msg ++ [128] ++ repeat 0 ((64 - (len + 9) mod 64) mod 64)%nat
      ++ be_bytes 8 (8 * N.of_nat len).

Fixpoint be_words (bs : list N) : list N :=
  match bs with
  | a :: b :: c :: d :: rest =>
      (N.shiftl a 24 + N.shiftl b 16 + N.shiftl c 8 + d) :: be_words rest
  | _ => []
  end.

(** The message schedule, latest word first: [n] more words after [w]. *)
Fixpoint schedule (n : nat) (w : list N) : list N :=
  match n with
  | O => w
  | S n' =>
      let x := add32 (add32 (add32 (sigma1 (nth 1 w 0)) (nth 6 w 0))
                            (sigma0 (nth 14 w 0))) (nth 15 w 0) in
      schedule n' (x :: w)
  end.

Record regs : Type := Regs { ra : N; rb : N; rc : N; rd : N; re : N; rf : N; rg : N; rh : N }.

Definition round (s : regs) (kw : N * N) : regs :=
  let t1 := add32 (add32 (add32 (add32 (rh s) (Sigma1 (re s))) (Ch (re s) (rf s) (rg s)))
                         (fst kw)) (snd kw) in
  let t2 := add32 (Sigma0 (ra s)) (Maj (ra s) (rb s) (rc s)) in
  Regs (add32 t1 t2) (ra s) (rb s) (rc s) (add32 (rd s) t1) (re s) (rf s) (rg s).

Definition of_list (h : list N) : regs :=
  Regs (nth 0 h 0) (nth 1 h 0) (nth 2 h 0) (nth 3 h 0)
       (nth 4 h 0) (nth 5 h 0) (nth 6 h 0) (nth 7 h 0).

Definition to_list (s : regs) : list N :=
  [ra s; rb s; rc s; rd s; re s; rf s; rg s; rh s].

Definition compress (h : list N) (block : list N) : list N :=
  let w := rev (schedule 48 (rev (be_words block))) in
  let s := fold_left round (combine K w) (of_list h) in
  map (fun xy => add32 (fst xy) (snd xy)) (combine h (to_list s)).

Fixpoint blocks (fuel : nat) (h : list N) (bs : list N) : list N :=
  match fuel, bs with
  | S fuel', _ :: _ => blocks fuel' (compress h (firstn 64 bs)) (skipn 64 bs)
  | _, _ => h
  end.

Definition to_byte (n : N) : byte :=
  match Byte.of_N n with Some b => b | None => x00 end.

Definition digest (msg : list byte) : list byte :=
  let bs := pad (map Byte.to_N msg) in
  map to_byte (flat_map (be_bytes 4) (blocks (List.length bs) H0 bs)).

End SHA256.

Module HMAC.

Definition xor_with (c : N) (b : byte) : byte :=
  SHA256.to_byte (N.lxor c (Byte.to_N b)).

(** HMAC-SHA-256: a key longer than a block is hashed first, then padded
    with zeros to the block. *)
Definition sha256 (key msg : list byte) : list byte :=
  let k := if (64 <? List.length key)%nat then SHA256.digest key else key in
  let k := (k ++ repeat x00 (64 - List.length k))%list in
  SHA256.digest (map (xor_with 92) k ++ SHA256.digest (map (xor_with 54) k ++ msg))%list.

End HMAC.

(** ** base64url without padding (RFC 4648 section 5), as jose writes it *)

Module Base64url.

(** Six bits, the most significant first. *)
Definition sextet : Type := (bool * bool * bool * bool * bool * bool)%type.

Definition alphabet : string :=
  "ABCDEFGHIJKLMNOPQRSTUVWXYZabcdefghijklmnopqrstuvwxyz0123456789-_".

Definition bit (b : bool) : nat := if b then 1 else 0.

Definition index (x : sextet) : nat :=
  let '(a, b, c, d, e, f) := x in
  32 * bit a + 16 * bit b + 8 * bit c + 4 * bit d + 2 * bit e + bit f.

Definition digit (x : sextet) : ascii :=
  nth (index x) (list_ascii_of_string alphabet) "A"%char.

Definition of_index (n : N) : sextet :=
  (N.testbit n 5, N.testbit n 4, N.testbit n 3, N.testbit n 2, N.testbit n 1, N.testbit n 0).

Definition value (c : ascii) : option sextet :=
  let n := N_of_ascii c in
  if ((65 <=? n) && (n <=? 90))%N then Some (of_index (n - 65))
  else if ((97 <=? n) && (n <=? 122))%N then Some (of_index (n - 71))
  else if ((48 <=? n) && (n <=? 57))%N then Some (of_index (n + 4))
  else if (n =? 45)%N then Some (of_index 62)
  else if (n =? 95)%N then Some (of_index 63)
  else None.

(** The bits of a byte, the most significant first. *)
Definition bits (x : byte) : bool * bool * bool * bool * bool * bool * bool * bool :=
  let '(b0, (b1, (b2, (b3, (b4, (b5, (b6, b7))))))) := Byte.to_bits x in
  (b7, b6, b5, b4, b3, b2, b1, b0).

Definition octet (b7 b6 b5 b4 b3 b2 b1 b0 : bool) : byte :=
  Byte.of_bits (b0, (b1, (b2, (b3, (b4, (b5, (b6, b7))))))).

Fixpoint encode (bs : list byte) : string :=
  match bs with
  | [] => EmptyString
  | [x] =>
      let '(x7, x6, x5, x4, x3, x2, x1, x0) := bits x in
      String (digit (x7, x6, x5, x4, x3, x2))
        (String (digit (x1, x0, false, false, false, false)) EmptyString)
  | [x; y] =>
      let '(x7, x6, x5, x4, x3, x2, x1, x0) := bits x in
      let '(y7, y6, y5, y4, y3, y2, y1, y0) := bits y in
      String (digit (x7, x6, x5, x4, x3, x2))
        (String (digit (x1, x0, y7, y6, y5, y4))
           (String (digit (y3, y2, y1, y0, false, false)) EmptyString))
  | x :: y :: z :: rest =>
      let '(x7, x6, x5, x4, x3, x2, x1, x0) := bits x in
      let '(y7, y6, y5, y4, y3, y2, y1, y0) := bits y in
      let '(z7, z6, z5, z4, z3, z2, z1, z0) := bits z in
      String (digit (x7, x6, x5, x4, x3, x2))
        (String (digit (x1, x0, y7, y6, y5, y4))
           (String (digit (y3, y2, y1, y0, z7, z6))
              (String (digit (z5, z4, z3, z2, z1, z0)) (encode rest))))
  end.

Fixpoint sextets (s : string) : option (list sextet) :=
  match s with
  | EmptyString => Some []
  | String c r =>
      match value c, sextets r with
      | Some x, Some xs => Some (x :: xs)
      | _, _ => None
      end
  end.

(** Four digits give three bytes; a tail of two or three digits gives one
    or two (the bits left over are dropped); a single digit is malformed. *)
Fixpoint regroup (xs : list sextet) : option (list byte) :=
  match xs with
  | [] => Some []
  | [_] => None
  | [(a5, a4, a3, a2, a1, a0); (b5, b4, _, _, _, _)] =>
      Some [octet a5 a4 a3 a2 a1 a0 b5 b4]
  | [(a5, a4, a3, a2, a1, a0); (b5, b4, b3, b2, b1, b0); (c5, c4, c3, c2, _, _)] =>
      Some [octet a5 a4 a3 a2 a1 a0 b5 b4; octet b3 b2 b1 b0 c5 c4 c3 c2]
  | (a5, a4, a3, a2, a1, a0) :: (b5, b4, b3, b2, b1, b0)
      :: (c5, c4, c3, c2, c1, c0) :: (d5, d4, d3, d2, d1, d0) :: rest =>
      match regroup rest with
      | Some bs =>
          Some (octet a5 a4 a3 a2 a1 a0 b5 b4 :: octet b3 b2 b1 b0 c5 c4 c3 c2
                  :: octet c1 c0 d5 d4 d3 d2 d1 d0 :: bs)
      | None => None
      end
  end.

Definition decode (s : string) : option (list byte) :=
  match sextets s with
  | Some xs => regroup xs
  | None => None
  end.

End Base64url.

(** ** The data of the route *)

Module Data.
Import JS.

(** [{ isMod: boolean }] *)
Record Claim : Type := { isMod : bool }.

(** [{ [key: string]: string[] | undefined }]: channel name to operations,
    in the order of the object's keys. *)
Definition Capability : Type := list (string * option (list string)).

(** What the handler reads of the session [auth()] resolves to:
    [session?.user?.email]; [role] is the field of the disabled rule.
    [None] stands for [undefined] and [null] alike. *)
Record User : Type := { email : option string; role : option string }.
Record Session : Type := { user : option User }.

(** [session?.user] and [user?.email] *)
Definition session_user (s : option Session) : option User :=
  match s with
  | Some s' => user s'
  | None => None
  end.

Definition user_email (u : option User) : option string :=
  match u with
  | Some u' => email u'
  | None => None
  end.

(** [NextResponse.json(body, { status })] *)
Record Response : Type := { status : Z; body : value }.

Definition claim_value (c : Claim) : value := VObj [("isMod", VBool (isMod c))].

Definition operations_value (ops : option (list string)) : value :=
  match ops with
  | Some l => VArr (map VStr l)
  | None => VUndefined
  end.

Definition capability_value (c : Capability) : value :=
  VObj (map (fun kv => (fst kv, operations_value (snd kv))) c).

(** A text or [undefined] as a value. *)
Definition text_value (t : option string) : value :=
  match t with
  | Some s => VStr s
  | None => VUndefined
  end.

(** Reading a capability back from a parsed JSON value. *)
Fixpoint strings_of (items : list value) : option (list string) :=
  match items with
  | [] => Some []
  | VStr s :: rest =>
      match strings_of rest with
      | Some l => Some (s :: l)
      | None => None
      end
  | _ => None
  end.

Fixpoint entries_of (members : list (string * value)) : option Capability :=
  match members with
  | [] => Some []
  | (k, VArr items) :: rest =>
      match strings_of items, entries_of rest with
      | Some l, Some c => Some ((k, Some l) :: c)
      | _, _ => None
      end
  | _ => None
  end.

Definition capability_of_value (v : value) : option Capability :=
  match v with
  | VObj members => entries_of members
  | _ => None
  end.

End Data.

(** ** Running a request: the world, the clock, exceptions, the call log *)

Module Exec.
Import JS Data.

(** A thrown JavaScript error. *)
Inductive error : Type := Error (name message : string).

Inductive outcome (A : Type) : Type :=
| Returned (a : A)
| Threw (e : error).
Arguments Returned {A} a.
Arguments Threw {A} e.

(** What a request meets from outside.  [clock n] is the time value, in
    milliseconds since the epoch, that the [n]-th [new Date()] of the run
    reads.  The platform's HMAC either accepts a key of no bytes (as
    Node's crypto does) or rejects it (as WebCrypto's importKey does). *)
Record World : Type := {
  session : outcome (option Session);
  ABLY_SECRET_KEY : option string;
  clock : nat -> Z;
  accepts_empty_key : bool
}.

(** The calls a run makes, oldest first.  The log is the model's record of
    which functions a request enters (and of what [console.error] is given),
    kept so that "is never invoked" can be stated; the route itself does not
    read it. *)
Inductive event : Type :=
| Called_auth
| Called_generateCapability (claim : Claim)
| Called_createToken (clientId : string) (apiKey : option string)
    (claim : Claim) (capability : Capability)
| Called_sign (key : list byte)
| Console_error (label : string) (e : error).

Record State : Type := { reads : nat; log : list event }.

Definition initial : State := {| reads := 0; log := [] |}.

Definition M (A : Type) : Type := World -> State -> outcome A * State.

Definition ret {A : Type} (a : A) : M A := fun _ st => (Returned a, st).

Definition throw {A : Type} (e : error) : M A := fun _ st => (Threw e, st).

Definition bind {A B : Type} (m : M A) (k : A -> M B) : M B :=
  fun w st =>
    match m w st with
    | (Returned a, st') => k a w st'
    | (Threw e, st') => (Threw e, st')
    end.

(** [try { m } catch (e) { handler e }] *)
Definition try_catch {A : Type} (m : M A) (handler : error -> M A) : M A :=
  fun w st =>
    match m w st with
    | (Returned a, st') => (Returned a, st')
    | (Threw e, st') => handler e w st'
    end.

Definition world : M World := fun w st => (Returned w, st).

Definition emit (e : event) : M unit :=
  fun _ st => (Returned tt, {| reads := reads st; log := log st ++ [e] |}).

(** [new Date().getTime()] *)
Definition now : M Z :=
  fun w st => (Returned (clock w (reads st)), {| reads := S (reads st); log := log st |}).

End Exec.

Notation "x <- m ;; k" := (Exec.bind m (fun x => k))
  (at level 61, m at next level, right associativity).
Notation "m ;;; k" := (Exec.bind m (fun _ => k))
  (at level 61, right associativity).

(** ** jose: [SignJWT], compact HS256 signatures, decoding *)

Module Jose.
Import JS Data Exec.

Record SignJWT : Type := {
  payload : list (string * value);
  protectedHeader : option (list (string * value))
}.

(** [new SignJWT(payload)] *)
Definition new_SignJWT (claims : list (string * value)) : SignJWT :=
  {| payload := claims; protectedHeader := None |}.

Definition setProtectedHeader (header : list (string * value)) (t : SignJWT) : SignJWT :=
  {| payload := payload t; protectedHeader := Some header |}.

(** [Math.floor(date.getTime() / 1000)] *)
Definition epoch (ms : Z) : Z := (ms / 1000)%Z.

(** [setIssuedAt()]: "iat" is the current timestamp. *)
Definition setIssuedAt (t : SignJWT) : M SignJWT :=
  ms <- now ;;
  ret {| payload := set_member "iat" (VNum (epoch ms)) (payload t);
         protectedHeader := protectedHeader t |}.

Definition is_digit (c : ascii) : bool :=
  ((48 <=? N_of_ascii c) && (N_of_ascii c <=? 57))%N.

Fixpoint span_digits (s : string) : string * string :=
  match s with
  | EmptyString => (EmptyString, EmptyString)
  | String c r =>
      if is_digit c then let (d, rest) := span_digits r in (String c d, rest)
      else (EmptyString, s)
  end.

Definition one_of (words : list string) (u : string) : bool :=
  existsb (String.eqb u) words.

Definition unit_seconds (u : string) : option Z :=
  if one_of ["sec"; "secs"; "second"; "seconds"; "s"] u then Some 1%Z
  else if one_of ["minute"; "minutes"; "min"; "mins"; "m"] u then Some 60%Z
  else if one_of ["hour"; "hours"; "hr"; "hrs"; "h"] u then Some 3600%Z
  else if one_of ["day"; "days"; "d"] u then Some 86400%Z
  else if one_of ["week"; "weeks"; "w"] u then Some 604800%Z
  else if one_of ["year"; "years"; "yr"; "yrs"; "y"] u then Some 31557600%Z
  else None.

(** jose's [secs]: a time span as seconds.  The spans read here are a whole
    number, an optional space and a unit in lower case. *)
Definition secs (span : string) : option Z :=
  let (digits, rest) := span_digits span in
  let u := match rest with String " " r => r | _ => rest end in
  match NilEmpty.uint_of_string digits, unit_seconds u with
  | Some d, Some f => if digits =? "" then None else Some (Z.of_uint d * f)%Z
  | _, _ => None
  end.

(** [setExpirationTime(span)] for a string: the span is added to the
    current timestamp. *)
Definition setExpirationTime (span : string) (t : SignJWT) : M SignJWT :=
  ms <- now ;;
  match secs span with
  | Some d =>
      ret {| payload := set_member "exp" (VNum (epoch ms + d)) (payload t);
             protectedHeader := protectedHeader t |}
  | None => throw (Error "TypeError" "Invalid time period format")
  end.

(** The platform's HMAC with SHA-256 over [data]. *)
Definition hmac (key data : list byte) : M (list byte) :=
  w <- world ;;
  emit (Called_sign key) ;;;
  if (List.length key =? 0)%nat && negb (accepts_empty_key w)
  then throw (Error "DataError" "Zero-length key is not supported")
  else ret (HMAC.sha256 key data).

(** jose's base64url of a text or of nothing. *)
Definition b64 (t : option string) : string := Base64url.encode (encode t).

(** [new CompactSign(payload).setProtectedHeader(header).sign(key)] for
    the algorithm of the route, HS256. *)
Definition compact_sign (header : list (string * value)) (body : list byte)
  (key : list byte) : M string :=
  match get_member "alg" header with
  | Some (VStr alg) =>
      if alg =? "HS256" then
        let data := b64 (JSON.stringify (VObj header)) ++ "." ++ Base64url.encode body in
        signature <- hmac key (list_byte_of_string data) ;;
        ret (data ++ "." ++ Base64url.encode signature)
      else throw (Error "JOSENotSupported" "alg is outside the model")
  | _ => throw (Error "JWSInvalid" "JWS Protected Header Parameter alg missing or invalid")
  end.

(** [sign(key)]: the claims as JSON, signed in the compact form. *)
Definition sign (t : SignJWT) (key : list byte) : M string :=
  match protectedHeader t with
  | Some header => compact_sign header (encode (JSON.stringify (VObj (payload t)))) key
  | None => throw (Error "JWSInvalid" "either setProtectedHeader or setUnprotectedHeader must be called")
  end.

(** A base64url part of a token read as a JSON object. *)
Definition decode_object (part : string) : option (list (string * value)) :=
  match Base64url.decode part with
  | Some bytes =>
      match JSON.parse (string_of_list_byte bytes) with
      | Some (VObj members) => Some members
      | _ => None
      end
  | None => None
  end.

(** [decodeProtectedHeader(token)]: the first part of a token of three
    parts (a compact JWS) or of five (a compact JWE), which may not be
    empty; any other text is no token. *)
Definition decodeProtectedHeader (token : string) : option (list (string * value)) :=
  match pieces dot token with
  | [part; _; _] | [part; _; _; _; _] =>
      if part =? "" then None else decode_object part
  | _ => None
  end.

(** [decodeJwt(token)]: the claims of a token of three parts. *)
Definition decodeJwt (token : string) : option (list (string * value)) :=
  match pieces dot token with
  | [_; part; _] => decode_object part
  | _ => None
  end.

End Jose.

(** ** The route *)

Module Route.
Import JS Data Exec Jose.

(** [createToken], lines 23-53.  [apiKey] is [None] when the caller passes
    [undefined] (the handler casts the environment variable to string). *)
Definition createToken (clientId : string) (apiKey : option string)
  (claim : Claim) (capability : Capability) : M string :=
  parts <- match apiKey with
           | Some k => ret (split k colon 2)
           | None => throw (Error "TypeError" "Cannot read properties of undefined (reading 'split')")
           end ;;
  let appId := nth_error parts 0 in
  let signingKey := nth_error parts 1 in
  let token :=
    setProtectedHeader [("kid", text_value appId); ("alg", VStr "HS256")]
      (new_SignJWT
         [("x-ably-capability", text_value (JSON.stringify (capability_value capability)));
          ("x-ably-clientId", VStr clientId);
          ("ably.channel.*", text_value (JSON.stringify (claim_value claim)))]) in
  token <- setIssuedAt token ;;
  token <- setExpirationTime "24h" token ;;
  sign token (encode signingKey).

(** [generateCapability], lines 60-72. *)
Definition generateCapability (claim : Claim) : Capability :=
  if isMod claim then
    [("*", Some ["*"])]
  else
    [("chat:general", Some ["subscribe"; "publish"; "presence"; "history"]);
     ("chat:random", Some ["subscribe"; "publish"; "presence"; "history"]);
     ("chat:announcements", Some ["subscribe"; "presence"; "history"])].

(** [await auth()] *)
Definition auth : M (option Session) :=
  w <- world ;;
  emit Called_auth ;;;
  match session w with
  | Returned s => ret s
  | Threw e => throw e
  end.

Definition json (members : list (string * value)) (code : Z) : Response :=
  {| status := code; body := VObj members |}.

(** [GET], lines 76-110.  The token is the email itself when that is falsy
    ([a && b]), the signed token otherwise. *)
Definition GET : M Response :=
  try_catch
    (session <- auth ;;
     let user := session_user session in
     let userClaim := {| isMod := false |} in
     emit (Called_generateCapability userClaim) ;;;
     let userCapability := generateCapability userClaim in
     token <- match user_email user with
              | Some address =>
                  if truthy (Some address) then
                    w <- world ;;
                    emit (Called_createToken address (ABLY_SECRET_KEY w) userClaim userCapability) ;;;
                    t <- createToken address (ABLY_SECRET_KEY w) userClaim userCapability ;;
                    ret (Some t)
                  else ret (Some address)
              | None => ret None
              end ;;
     if truthy token then
       ret (json [("success", VBool true); ("token", text_value token)] 200)
     else
       ret (json [("success", VBool false); ("error", VStr "Token generation failed")] 500))
    (fun err =>
       emit (Console_error "Error in Token GET handler:" err) ;;;
       ret (json [("success", VBool false); ("error", VStr "Internal server error")] 500)).

(** What a token says, read the way a client of the provider reads it. *)
Definition token_claim (name : string) (token : string) : option value :=
  match decodeJwt token with
  | Some claims => get_member name claims
  | None => None
  end.

Definition token_capability (token : string) : option Capability :=
  match token_claim "x-ably-capability" token with
  | Some (VStr text) =>
      match JSON.parse text with
      | Some v => capability_of_value v
      | None => None
      end
  | _ => None
  end.

Definition token_header (name : string) (token : string) : option value :=
  match decodeProtectedHeader token with
  | Some header => get_member name header
  | None => None
  end.

(** The token a response carries, if it carries one. *)
Definition issued_token (r : Response) : option string :=
  match body r with
  | VObj members =>
      match get_member "token" members with
      | Some (VStr t) => Some t
      | _ => None
      end
  | _ => None
  end.

End Route.

(** ** What a run of [createToken] computes *)

Module Token.
Import JS Data Exec Jose.

(** The protected header and the claims set [createToken] builds. *)
Definition header (appId : option string) : list (string * value) :=
  [("kid", text_value appId); ("alg", VStr "HS256")].

Definition claims (clientId : string) (claim : Claim) (capability : Capability)
  (iat exp : Z) : list (string * value) :=
  [("x-ably-capability", text_value (JSON.stringify (capability_value capability)));
   ("x-ably-clientId", VStr clientId);
   ("ably.channel.*", text_value (JSON.stringify (claim_value claim)));
   ("iat", VNum iat);
   ("exp", VNum exp)].

(** The compact form: header and claims in base64url, and the HMAC of
    those two parts under [key]. *)
Definition signing_input (head body : list (string * value)) : string :=
  b64 (JSON.stringify (VObj head)) ++ "." ++ b64 (JSON.stringify (VObj body)).

Definition signed (head body : list (string * value)) (key : list byte) : string :=
  signing_input head body ++ "."
    ++ Base64url.encode (HMAC.sha256 key (list_byte_of_string (signing_input head body))).

(** The state after the two clock readings and the signature. *)
Definition after_signing (key : list byte) (st : State) : State :=
  {| reads := S (S (reads st)); log := log st ++ [Called_sign key] |}.

(** The two pieces of the API key [createToken] uses. *)
Definition app_id (secret : string) : option string := nth_error (split secret colon 2) 0.
Definition signing_key (secret : string) : option string := nth_error (split secret colon 2) 1.

(** The secret as the specification words it: exactly one separator, and
    two parts that are not empty. *)
Definition well_formed (secret : string) : bool :=
  match pieces colon secret with
  | [a; b] => negb (a =? "") && negb (b =? "")
  | _ => false
  end.

End Token.

(** ** How the handler ends *)

Module Handler.
Import JS Data Exec Jose Route Token.

Definition regular : Claim := {| isMod := false |}.

Definition label : string := "Error in Token GET handler:".

Definition internal_error : Response :=
  json [("success", VBool false); ("error", VStr "Internal server error")] 500.

Definition generation_failed : Response :=
  json [("success", VBool false); ("error", VStr "Token generation failed")] 500.

Definition success (t : string) : Response :=
  json [("success", VBool true); ("token", VStr t)] 200.

(** The token the handler issues to [address] under [secret] when the
    clock reads [t0] and then [t1]. *)
Definition handler_token (address secret : string) (t0 t1 : Z) : string :=
  signed (header (app_id secret))
    (claims address regular (generateCapability regular) (epoch t0) (epoch t1 + 86400))
    (encode (signing_key secret)).

(** The calls of a request up to and including that of [createToken]. *)
Definition calls (w : World) (address : string) : list event :=
  [Called_auth; Called_generateCapability regular;
   Called_createToken address (ABLY_SECRET_KEY w) regular (generateCapability regular)].

(** How a request ends: the response and the calls made. *)
Inductive ends (w : World) : Response -> list event -> Prop :=
| lookup_failed (e : error) :
    session w = Threw e ->
    ends w internal_error [Called_auth; Console_error label e]
| no_identity (s : option Session) :
    session w = Returned s ->
    truthy (user_email (session_user s)) = false ->
    ends w generation_failed [Called_auth; Called_generateCapability regular]
| key_undefined (s : option Session) (address : string) :
    session w = Returned s ->
    user_email (session_user s) = Some address -> address <> "" ->
    ABLY_SECRET_KEY w = None ->
    ends w internal_error
      (calls w address
         ++ [Console_error label (Error "TypeError" "Cannot read properties of undefined (reading 'split')")])
| key_rejected (s : option Session) (address secret : string) :
    session w = Returned s ->
    user_email (session_user s) = Some address -> address <> "" ->
    ABLY_SECRET_KEY w = Some secret ->
    encode (signing_key secret) = [] -> accepts_empty_key w = false ->
    ends w internal_error
      (calls w address
         ++ [Called_sign [];
             Console_error label (Error "DataError" "Zero-length key is not supported")])
| issued (s : option Session) (address secret : string) :
    session w = Returned s ->
    user_email (session_user s) = Some address -> address <> "" ->
    ABLY_SECRET_KEY w = Some secret ->
    encode (signing_key secret) <> [] \/ accepts_empty_key w = true ->
    ends w (success (handler_token address secret (clock w 0) (clock w 1)))
      (calls w address ++ [Called_sign (encode (signing_key secret))]).

End Handler.

(** ** Example worlds *)

Module Examples.

Definition strict_world : Exec.World :=
  {| Exec.session := Exec.Returned None; Exec.ABLY_SECRET_KEY := None;
     Exec.clock := fun n => (1700000000000 + Z.of_nat n)%Z; Exec.accepts_empty_key := false |}.

Definition on_the_second : Exec.World :=
  {| Exec.session := Exec.Returned None; Exec.ABLY_SECRET_KEY := None;
     Exec.clock := fun n => (999 + Z.of_nat n)%Z; Exec.accepts_empty_key := false |}.

Definition signed_in (address : string) (secret : option string) : Exec.World :=
  {| Exec.session :=
       Exec.Returned (Some {| Data.user := Some {| Data.email := Some address;
                                                  Data.role := Some "moderator" |} |});
     Exec.ABLY_SECRET_KEY := secret;
     Exec.clock := fun n => (1700000000000 + Z.of_nat n)%Z;
     Exec.accepts_empty_key := false |}.

End Examples.

(** ** Further data: granted entries, more example worlds *)

Module Further.
Import JS Data Exec.

(** The entries of a capability that have a list of operations: the ones
    [JSON.stringify] writes. *)
Definition granted (c : Capability) : Capability :=
  filter (fun kv => match snd kv with Some _ => true | None => false end) c.

(** A session lookup that rejects. *)
Definition lookup_down : World :=
  {| session := Threw (Error "Error" "fetch failed"); ABLY_SECRET_KEY := Some "appId.keyId:s3cr3t";
     clock := fun n => (1700000000000 + Z.of_nat n)%Z; accepts_empty_key := false |}.

(** A user with an email and any role, on a platform of either kind. *)
Definition request (address : string) (r : option string) (secret : option string)
  (accepts : bool) : World :=
  {| session := Returned (Some {| user := Some {| email := Some address; role := r |} |});
     ABLY_SECRET_KEY := secret;
     clock := fun n => (1700000000000 + Z.of_nat n)%Z;
     accepts_empty_key := accepts |}.

End Further.

(** * Facts about the platform *)

Section Strings.

Lemma append_assoc (a b c : string) : (a ++ b) ++ c = a ++ (b ++ c).
Proof. induction a as [|x a IH]; simpl; [reflexivity | now rewrite IH]. Qed.

Lemma append_empty (a : string) : a ++ "" = a.
Proof. induction a as [|x a IH]; simpl; [reflexivity | now rewrite IH]. Qed.

Lemma length_append (a b : string) :
  String.length (a ++ b) = String.length a + String.length b.
Proof. induction a as [|x a IH]; simpl; [reflexivity | now rewrite IH]. Qed.

Lemma pieces_free (sep : ascii) (a : string) :
  JS.has_char sep a = false -> JS.pieces sep a = [a].
Proof.
  induction a as [|x a IH]; simpl; [reflexivity|].
  intros H. apply orb_false_elim in H as [Hx Ha].
  rewrite Hx, (IH Ha). reflexivity.
Qed.

Lemma pieces_append (sep : ascii) (a b : string) :
  JS.has_char sep a = false ->
  JS.pieces sep (a ++ String sep b) = a :: JS.pieces sep b.
Proof.
  induction a as [|x a IH]; simpl.
  - intros _. now rewrite Ascii.eqb_refl.
  - intros H. apply orb_false_elim in H as [Hx Ha].
    rewrite Hx, (IH Ha). reflexivity.
Qed.

(** The first piece has no separator in it, whatever the text. *)
Lemma pieces_head (sep : ascii) (s : string) :
  exists p ps, JS.pieces sep s = p :: ps /\ JS.has_char sep p = false.
Proof.
  induction s as [|x s (p & ps & E & F)]; simpl.
  - now exists "", [].
  - destruct (Ascii.eqb x sep) eqn:Hx.
    + now exists "", (JS.pieces sep s).
    + rewrite E. exists (String x p), ps. simpl. now rewrite Hx, F.
Qed.

End Strings.

Section Base64urlFacts.
Import Base64url.

Lemma value_digit (x : sextet) : value (digit x) = Some x.
Proof.
  destruct x as [[[[[a b] c] d] e] f].
  destruct a, b, c, d, e, f; reflexivity.
Qed.

Lemma digit_not_dot (x : sextet) : Ascii.eqb (digit x) JS.dot = false.
Proof.
  destruct x as [[[[[a b] c] d] e] f].
  destruct a, b, c, d, e, f; reflexivity.
Qed.

Lemma octet_bits (x : byte) :
  let '(b7, b6, b5, b4, b3, b2, b1, b0) := bits x in
  octet b7 b6 b5 b4 b3 b2 b1 b0 = x.
Proof.
  unfold bits, octet.
  pose proof (Byte.of_bits_to_bits x) as H.
  destruct (Byte.to_bits x) as (b0 & b1 & b2 & b3 & b4 & b5 & b6 & b7).
  exact H.
Qed.

Lemma by_threes (P : list byte -> Prop) :
  P [] -> (forall x, P [x]) -> (forall x y, P [x; y]) ->
  (forall x y z rest, P rest -> P (x :: y :: z :: rest)) ->
  forall bs, P bs.
Proof.
  intros H0 H1 H2 H3.
  assert (H : forall bs, P bs /\ (forall x, P (x :: bs)) /\ (forall x y, P (x :: y :: bs))).
  { induction bs as [|z bs (IH0 & IH1 & IH2)].
    - repeat split; auto.
    - repeat split; auto. }
  intros bs. apply H.
Qed.

Lemma sextets_cons (c : ascii) (r : string) :
  sextets (String c r) =
  match value c, sextets r with
  | Some x, Some xs => Some (x :: xs)
  | _, _ => None
  end.
Proof. reflexivity. Qed.

Ltac open_bits x :=
  let H := fresh "H" in
  pose proof (octet_bits x) as H;
  destruct (bits x) as [[[[[[[? ?] ?] ?] ?] ?] ?] ?].

Lemma sextets_encode (bs : list byte) :
  exists xs, sextets (encode bs) = Some xs /\ regroup xs = Some bs.
Proof.
  induction bs as [| x | x y | x y z rest (xs & E & R)] using by_threes.
  - now exists [].
  - cbn [encode]. open_bits x.
    rewrite !sextets_cons, !value_digit. cbn [sextets].
    eexists; split; [reflexivity|]. cbn [regroup]. now rewrite H.
  - cbn [encode]. open_bits x. open_bits y.
    rewrite !sextets_cons, !value_digit. cbn [sextets].
    eexists; split; [reflexivity|]. cbn [regroup]. now rewrite H, H0.
  - cbn [encode]. open_bits x. open_bits y. open_bits z.
    rewrite !sextets_cons, !value_digit, E.
    eexists; split; [reflexivity|]. cbn [regroup]. rewrite R. now rewrite H, H0, H1.
Qed.

Lemma decode_encode (bs : list byte) : decode (encode bs) = Some bs.
Proof.
  unfold decode. destruct (sextets_encode bs) as (xs & E & R). now rewrite E.
Qed.

Lemma encode_no_dot (bs : list byte) : JS.has_char JS.dot (encode bs) = false.
Proof.
  induction bs as [| x | x y | x y z rest IH] using by_threes.
  - reflexivity.
  - cbn [encode]. open_bits x. cbn [JS.has_char]. now rewrite !digit_not_dot.
  - cbn [encode]. open_bits x. open_bits y. cbn [JS.has_char]. now rewrite !digit_not_dot.
  - cbn [encode]. open_bits x. open_bits y. open_bits z. cbn [JS.has_char].
    now rewrite !digit_not_dot, IH.
Qed.

Lemma encode_cons (x : byte) (bs : list byte) : (encode (x :: bs) =? "") = false.
Proof.
  destruct bs as [|y [|z rest]]; cbn [encode]; open_bits x;
    try open_bits y; try open_bits z; reflexivity.
Qed.

End Base64urlFacts.

(** Test vectors: FIPS 180-4 (the message abc and the empty one), a message
    of two blocks, RFC 4231 case 1, a key longer than a block, and tokens
    signed by other implementations of HS256. *)
Section Vectors.

Example sha256_abc :
  Base64url.encode (SHA256.digest (list_byte_of_string "abc"))
  = "ungWv48Bz-pBQUDeXa4iI7ADYaOWF3qctBD_YfIAFa0".
Proof. vm_compute. reflexivity. Qed.

Example sha256_empty :
  Base64url.encode (SHA256.digest []) = "47DEQpj8HBSa-_TImW-5JCeuQeRkm5NMpJWZG3hSuFU".
Proof. vm_compute. reflexivity. Qed.

Example sha256_two_blocks :
  Base64url.encode (SHA256.digest (repeat x61 119))
  = "MeulHDE6XAgiat8Y1KNZz9_Y0ugWsT9K-VL36mWE3Ps".
Proof. vm_compute. reflexivity. Qed.

Example hmac_rfc4231_1 :
  Base64url.encode (HMAC.sha256 (repeat x0b 20) (list_byte_of_string "Hi There"))
  = "sDRMYdjbOFNcqK_OrwvxK4gdwgDJgz2nJuk3bC4yz_c".
Proof. vm_compute. reflexivity. Qed.

Example hmac_long_key :
  Base64url.encode (HMAC.sha256 (repeat x6b 100) (list_byte_of_string "Hi There"))
  = "ZEEinMAAi78hLQ15INWMl7bf7tbQ7v_iocRsiheRUR8".
Proof. vm_compute. reflexivity. Qed.

Example hs256_signature :
  Base64url.encode
    (HMAC.sha256 (list_byte_of_string "your-256-bit-secret")
       (list_byte_of_string
          ("eyJhbGciOiJIUzI1NiIsInR5cCI6IkpXVCJ9." ++
           "eyJzdWIiOiIxMjM0NTY3ODkwIiwibmFtZSI6IkpvaG4gRG9lIiwiaWF0IjoxNTE2MjM5MDIyfQ")))
  = "SflKxwRJSMeKKF2QT4fwpMeJf36POk6yJV_adQssw5c".
Proof. vm_compute. reflexivity. Qed.

Example split_examples :
  JS.split "appId.keyId:s3cr3t" JS.colon 2 = ["appId.keyId"; "s3cr3t"]
  /\ JS.split "a:b:c" JS.colon 2 = ["a"; "b"]
  /\ JS.split "abc" JS.colon 2 = ["abc"]
  /\ JS.split "a:" JS.colon 2 = ["a"; ""]
  /\ JS.split ":b" JS.colon 2 = [""; "b"]
  /\ JS.split "" JS.colon 2 = [""].
Proof. repeat split. Qed.

(** The answer of the handler to a@example.com under the key
    appId.keyId:s3cr3t at 1700000000 s, bit for bit the token an independent
    HS256 implementation signs for the same header and claims. *)
Example GET_token :
  fst (Route.GET (Examples.signed_in "a@example.com" (Some "appId.keyId:s3cr3t"))
         Exec.initial)
  = Exec.Returned
      (Handler.success
         ("eyJraWQiOiJhcHBJZC5rZXlJZCIsImFsZyI6IkhTMjU2In0" ++ "." ++
          ("eyJ4LWFibHktY2FwYWJpbGl0eSI6IntcImNoYXQ6Z2VuZXJhbFwiOltcInN1YnNjcmliZVwiLFwi" ++
     "cHVibGlzaFwiLFwicHJlc2VuY2VcIixcImhpc3RvcnlcIl0sXCJjaGF0OnJhbmRvbVwiOltcInN1" ++
     "YnNjcmliZVwiLFwicHVibGlzaFwiLFwicHJlc2VuY2VcIixcImhpc3RvcnlcIl0sXCJjaGF0OmFu" ++
     "bm91bmNlbWVudHNcIjpbXCJzdWJzY3JpYmVcIixcInByZXNlbmNlXCIsXCJoaXN0b3J5XCJdfSIs" ++
     "IngtYWJseS1jbGllbnRJZCI6ImFAZXhhbXBsZS5jb20iLCJhYmx5LmNoYW5uZWwuKiI6IntcImlz" ++
     "TW9kXCI6ZmFsc2V9IiwiaWF0IjoxNzAwMDAwMDAwLCJleHAiOjE3MDAwODY0MDB9") ++ "." ++
          "001y_g76JKyrVfPNoTq5XwjsFMxpOi9KoVTJ42FM_QQ")).
Proof. vm_compute. reflexivity. Qed.

End Vectors.

Section JSONFacts.
Import JS JSON.

Lemma parse_chars_escape_char (c : ascii) (rest : string) :
  parse_chars (escape_char c ++ rest) = prepend (String c "") (parse_chars rest).
Proof.
  destruct c as [[] [] [] [] [] [] [] []]; reflexivity.
Qed.

Lemma parse_chars_escape (s rest : string) :
  parse_chars (escape s ++ String dquote rest) = Some (s, rest).
Proof.
  induction s as [|c s IH]; [reflexivity|].
  cbn [escape]. rewrite append_assoc, parse_chars_escape_char, IH. reflexivity.
Qed.

(** Numbers *)

Lemma span_number_append (a rest : string) :
  (forall c, has_char c a = true -> is_number_char c = true) ->
  delimited rest = true ->
  span_number (a ++ rest) = (a, rest).
Proof.
  intros Ha Hrest. induction a as [|x a IH]; simpl.
  - destruct rest as [|c r]; [reflexivity|].
    simpl in *. apply negb_true_iff in Hrest. now rewrite Hrest.
  - rewrite (Ha x) by (simpl; now rewrite Ascii.eqb_refl).
    rewrite IH; [reflexivity|].
    intros c Hc. apply Ha. simpl. rewrite Hc. apply orb_true_r.
Qed.

Lemma uint_chars (d : Decimal.uint) (c : ascii) :
  has_char c (NilEmpty.string_of_uint d) = true -> is_number_char c = true.
Proof.
  induction d as [|d IH|d IH|d IH|d IH|d IH|d IH|d IH|d IH|d IH|d IH];
    cbn [NilEmpty.string_of_uint has_char]; [discriminate|..];
    (intros H; apply orb_true_iff in H as [H|H];
     [apply Ascii.eqb_eq in H; subst c; reflexivity | exact (IH H)]).
Qed.

Lemma number_chars (n : Z) (c : ascii) :
  has_char c (number_to_string n) = true -> is_number_char c = true.
Proof.
  unfold number_to_string.
  assert (U : forall d, has_char c (NilZero.string_of_uint d) = true ->
                        is_number_char c = true).
  { intros d. destruct d; try apply (uint_chars _ c).
    cbn [NilZero.string_of_uint has_char].
    intros H. apply orb_true_iff in H as [H|H]; [|discriminate].
    apply Ascii.eqb_eq in H. now subst c. }
  destruct (Z.to_int n) as [d|d]; cbn [NilZero.string_of_int has_char].
  - apply U.
  - intros H. apply orb_true_iff in H as [H|H]; [|exact (U _ H)].
    apply Ascii.eqb_eq in H. now subst c.
Qed.

Lemma to_int_proper (n : Z) :
  Z.to_int n <> Decimal.Pos Decimal.Nil /\ Z.to_int n <> Decimal.Neg Decimal.Nil.
Proof.
  destruct n as [|p|p]; simpl; split; try discriminate;
    intros [= H]; exact (DecimalPos.Unsigned.to_uint_nonnil p H).
Qed.

Lemma parse_number_roundtrip (n : Z) (rest : string) :
  delimited rest = true ->
  parse_number (number_to_string n ++ rest) = Some (VNum n, rest).
Proof.
  intros Hrest. unfold parse_number.
  rewrite span_number_append; [|exact (number_chars n)|exact Hrest].
  unfold number_to_string at 1.
  destruct (to_int_proper n) as [Hp Hn].
  rewrite NilZero.isi by assumption.
  rewrite DecimalZ.of_to, String.eqb_refl. reflexivity.
Qed.

(** The first character of a number sends [parse_value] to [parse_number]. *)
Lemma number_head (n : Z) :
  exists c r, number_to_string n = String c r /\ is_number_char c = true.
Proof.
  destruct (number_to_string n) as [|c r] eqn:E.
  - exfalso. unfold number_to_string in E.
    destruct (to_int_proper n) as [Hp Hn].
    pose proof (NilZero.isi (Z.to_int n) Hp Hn) as H. rewrite E in H. discriminate.
  - exists c, r. split; [reflexivity|].
    apply (number_chars n). rewrite E. simpl. now rewrite Ascii.eqb_refl.
Qed.

Lemma parse_value_number (fuel : nat) (c : ascii) (r : string) :
  is_number_char c = true ->
  parse_value (S fuel) (String c r) = parse_number (String c r).
Proof.
  destruct c as [[] [] [] [] [] [] [] []]; try discriminate; reflexivity.
Qed.

(** Induction on values, through the items of arrays and the members of
    objects. *)
Lemma value_induction (P : value -> Prop) :
  P VUndefined -> P VNull -> (forall b, P (VBool b)) -> (forall n, P (VNum n)) ->
  (forall s, P (VStr s)) ->
  (forall items, Forall P items -> P (VArr items)) ->
  (forall members, Forall (fun kx => P (snd kx)) members -> P (VObj members)) ->
  forall v, P v.
Proof.
  intros HU HN HB HZ HS HA HO.
  fix IH 1. intros [| |b|n|s|items|members].
  - exact HU.
  - exact HN.
  - apply HB.
  - apply HZ.
  - apply HS.
  - apply HA. induction items as [|x items IHl]; constructor; [apply IH | exact IHl].
  - apply HO. induction members as [|[k x] members IHl]; constructor; [apply IH | exact IHl].
Qed.

Lemma serialize_none (v : value) : serialize v = None -> v = VUndefined.
Proof. destruct v as [| |[]| | | |]; simpl; congruence. Qed.

Lemma serialize_array (items : list value) :
  serialize (VArr items) = Some ("[" ++ String.concat "," (map item_text items) ++ "]").
Proof. reflexivity. Qed.

Lemma defined_serialize (k : string) (x : value) (t : string) :
  serialize x = Some t ->
  defined (k, x) = true /\ member_text (k, x) = quote k ++ ":" ++ t.
Proof.
  intros E. split.
  - destruct x; try reflexivity; discriminate.
  - unfold member_text, item_text. cbn [fst snd]. now rewrite E.
Qed.

Lemma member_texts_filter (members : list (string * value)) :
  flat_map (fun kx : string * value =>
              match serialize (snd kx) with
              | Some t => [quote (fst kx) ++ ":" ++ t]
              | None => []
              end) members
  = map member_text (filter defined members).
Proof.
  induction members as [|[k x] ms IH]; [reflexivity|].
  cbn [flat_map filter fst snd]. rewrite IH.
  destruct (serialize x) as [t|] eqn:E.
  - destruct (defined_serialize k x t E) as [Hd Hm].
    rewrite Hd. cbn [map]. now rewrite Hm.
  - apply serialize_none in E. subst x. reflexivity.
Qed.

Lemma serialize_object (members : list (string * value)) :
  serialize (VObj members)
  = Some ("{" ++ String.concat "," (map member_text (filter defined members)) ++ "}").
Proof. rewrite <- member_texts_filter. reflexivity. Qed.

Lemma clean_object (members : list (string * value)) :
  clean (VObj members)
  = VObj (map (fun kx => (fst kx, clean (snd kx))) (filter defined members)).
Proof.
  cbn [clean]. f_equal.
  induction members as [|[k x] ms IH]; [reflexivity|].
  cbn [flat_map filter]. rewrite IH. unfold defined at 2. cbn [fst snd].
  destruct x; reflexivity.
Qed.

Lemma concat_cons2 (sep x y : string) (l : list string) :
  String.concat sep (x :: y :: l) = x ++ sep ++ String.concat sep (y :: l).
Proof. reflexivity. Qed.

Lemma item_head (x : value) :
  exists c r, item_text x = String c r /\ Ascii.eqb c "]" = false.
Proof.
  unfold item_text.
  destruct x as [| |[]|n|s|items|members]; cbn [serialize];
    try (eexists; eexists; split; [reflexivity|reflexivity]).
  destruct (number_head n) as (c & r & E & Hc). rewrite E.
  exists c, r. split; [reflexivity|].
  destruct c as [[] [] [] [] [] [] [] []]; try discriminate; reflexivity.
Qed.

Lemma parse_value_array (fuel : nat) (c : ascii) (r : string) :
  Ascii.eqb c "]" = false ->
  parse_value (S fuel) (String "[" (String c r)) =
  match parse_items fuel (String c r) with
  | Some (xs, rest) => Some (VArr xs, rest)
  | None => None
  end.
Proof.
  destruct c as [[] [] [] [] [] [] [] []]; try discriminate; reflexivity.
Qed.

Lemma parse_items_step (fuel : nat) (s : string) :
  parse_items (S fuel) s =
  match parse_value fuel s with
  | Some (x, String "," r) =>
      match parse_items fuel r with
      | Some (xs, rest) => Some (x :: xs, rest)
      | None => None
      end
  | Some (x, String "]" r) => Some ([x], r)
  | _ => None
  end.
Proof. reflexivity. Qed.

Lemma item_reads_back (x : value) :
  reads_back x ->
  forall fuel rest, String.length (item_text x) <= fuel -> delimited rest = true ->
  parse_value fuel (item_text x ++ rest)
  = Some (match x with VUndefined => VNull | _ => clean x end, rest).
Proof.
  intros Hx fuel rest Hlen Hrest. unfold item_text in *.
  destruct (serialize x) as [t|] eqn:E.
  - rewrite (Hx t E fuel rest Hlen Hrest). destruct x; try discriminate; reflexivity.
  - apply serialize_none in E. subst x.
    destruct fuel as [|fuel]; [simpl in Hlen; lia|]. reflexivity.
Qed.

Lemma parse_items_roundtrip (items : list value) :
  items <> [] -> Forall reads_back items ->
  forall fuel rest,
  String.length (String.concat "," (map item_text items)) < fuel ->
  parse_items fuel (String.concat "," (map item_text items) ++ String "]" rest)
  = Some (map (fun x => match x with VUndefined => VNull | _ => clean x end) items, rest).
Proof.
  induction items as [|x items IH]; [congruence|].
  intros _ Hall fuel rest Hlen. inversion Hall as [|? ? Hx Hitems]; subst.
  destruct fuel as [|fuel]; [lia|]. rewrite parse_items_step.
  destruct items as [|y items].
  - cbn [map String.concat] in *.
    rewrite (item_reads_back x Hx) by (reflexivity || lia). reflexivity.
  - cbn [map] in *. rewrite concat_cons2 in *.
    rewrite length_append in Hlen. cbn [String.length append] in Hlen.
    rewrite append_assoc. cbn [append].
    rewrite (item_reads_back x Hx) by (reflexivity || lia).
    rewrite IH; [reflexivity|discriminate|assumption|lia].
Qed.

Lemma parse_members_step (fuel : nat) (r : string) :
  parse_members (S fuel) (String dquote r) =
  match parse_chars r with
  | Some (k, String ":" r1) =>
      match parse_value fuel r1 with
      | Some (x, String "," r2) =>
          match parse_members fuel r2 with
          | Some (ms, rest) => Some ((k, x) :: ms, rest)
          | None => None
          end
      | Some (x, String "}" r2) => Some ([(k, x)], r2)
      | _ => None
      end
  | _ => None
  end.
Proof. reflexivity. Qed.

Lemma member_text_shape (kx : string * value) (rest : string) :
  member_text kx ++ rest
  = String dquote (escape (fst kx) ++ String dquote (String ":" (item_text (snd kx) ++ rest))).
Proof.
  unfold member_text, quote. cbn [append]. rewrite !append_assoc. reflexivity.
Qed.

Lemma length_member_text (kx : string * value) :
  String.length (item_text (snd kx)) + 3 <= String.length (member_text kx).
Proof.
  unfold member_text, quote. cbn [String.length append].
  rewrite !length_append. cbn [String.length]. lia.
Qed.

Lemma member_reads_back (kx : string * value) :
  defined kx = true -> reads_back (snd kx) ->
  forall fuel rest, String.length (item_text (snd kx)) <= fuel -> delimited rest = true ->
  parse_value fuel (item_text (snd kx) ++ rest) = Some (clean (snd kx), rest).
Proof.
  intros Hd Hx fuel rest Hlen Hrest.
  rewrite (item_reads_back _ Hx) by assumption.
  unfold defined in Hd. destruct (snd kx); try discriminate; reflexivity.
Qed.

Lemma parse_members_roundtrip (members : list (string * value)) :
  members <> [] ->
  Forall (fun kx => defined kx = true /\ reads_back (snd kx)) members ->
  forall fuel rest,
  String.length (String.concat "," (map member_text members)) < fuel ->
  parse_members fuel (String.concat "," (map member_text members) ++ String "}" rest)
  = Some (map (fun kx => (fst kx, clean (snd kx))) members, rest).
Proof.
  induction members as [|kx members IH]; [congruence|].
  intros _ Hall fuel rest Hlen. inversion Hall as [|? ? [Hd Hx] Hms]; subst.
  destruct fuel as [|fuel]; [lia|].
  pose proof (length_member_text kx) as Hk.
  destruct members as [|ky members].
  - cbn [map String.concat] in *.
    rewrite member_text_shape, parse_members_step, parse_chars_escape.
    rewrite (member_reads_back kx Hd Hx) by (reflexivity || lia). reflexivity.
  - cbn [map] in *. rewrite concat_cons2 in *.
    rewrite length_append in Hlen. cbn [String.length append] in Hlen.
    rewrite append_assoc, member_text_shape, parse_members_step, parse_chars_escape.
    cbn [append].
    rewrite (member_reads_back kx Hd Hx) by (reflexivity || lia).
    rewrite IH; [reflexivity|discriminate|assumption|lia].
Qed.

Lemma every_value_reads_back (v : value) : reads_back v.
Proof.
  induction v as [| |b|n|s|items IH|members IH] using value_induction;
    intros text E fuel rest Hlen Hrest.
  - discriminate.
  - injection E as <-. destruct fuel as [|fuel]; [simpl in Hlen; lia|]. reflexivity.
  - destruct b; injection E as <-;
      (destruct fuel as [|fuel]; [simpl in Hlen; lia|]); reflexivity.
  - injection E as <-.
    destruct (number_head n) as (c & r & En & Hc).
    destruct fuel as [|fuel]; [rewrite En in Hlen; simpl in Hlen; lia|].
    cbn [clean]. rewrite <- (parse_number_roundtrip n rest Hrest).
    rewrite En. cbn [append]. now apply parse_value_number.
  - injection E as <-.
    destruct fuel as [|fuel]; [simpl in Hlen; lia|].
    unfold quote. cbn [append]. rewrite append_assoc. cbn [append].
    change (parse_value (S fuel) (String dquote ?r))
      with (match parse_chars r with Some (t, rest) => Some (VStr t, rest) | None => None end).
    now rewrite parse_chars_escape.
  - rewrite serialize_array in E. injection E as <-.
    cbn [append String.length] in *. rewrite length_append in Hlen.
    cbn [String.length] in Hlen.
    destruct fuel as [|fuel]; [lia|].
    rewrite append_assoc. cbn [append].
    destruct items as [|x items]; [reflexivity|].
    assert (Hhead : exists c r,
               String.concat "," (map item_text (x :: items)) ++ String "]" rest
               = String c r /\ Ascii.eqb c "]" = false).
    { destruct (item_head x) as (c & r & Ex & Hc).
      destruct items as [|y items].
      - cbn [map String.concat]. rewrite Ex. cbn [append]. eauto.
      - cbn [map]. rewrite concat_cons2, Ex. cbn [append]. eauto. }
    destruct Hhead as (c & r & Ec & Hc).
    rewrite Ec, (parse_value_array fuel c r Hc), <- Ec.
    rewrite parse_items_roundtrip; [reflexivity|discriminate|assumption|lia].
  - rewrite serialize_object in E. injection E as <-. rewrite clean_object.
    cbn [append String.length] in *. rewrite length_append in Hlen.
    cbn [String.length] in Hlen.
    destruct fuel as [|fuel]; [lia|].
    rewrite append_assoc. cbn [append].
    assert (Hall : Forall (fun kx => defined kx = true /\ reads_back (snd kx))
                          (filter defined members)).
    { apply Forall_forall. intros kx Hin. apply filter_In in Hin as [Hin Hd].
      split; [exact Hd|]. rewrite Forall_forall in IH. now apply IH. }
    destruct (filter defined members) as [|kx ms] eqn:Ems; [reflexivity|].
    assert (Hhead : exists r,
               String.concat "," (map member_text (kx :: ms)) ++ String "}" rest
               = String dquote r).
    { destruct ms as [|ky ms].
      - cbn [map String.concat]. rewrite member_text_shape. eauto.
      - cbn [map]. rewrite concat_cons2, append_assoc, member_text_shape. eauto. }
    destruct Hhead as (r & Er).
    rewrite Er.
    change (parse_value (S fuel) (String "{" (String dquote r)))
      with (match parse_members fuel (String dquote r) with
            | Some (ms, rest) => Some (VObj ms, rest)
            | None => None
            end).
    rewrite <- Er.
    rewrite parse_members_roundtrip; [reflexivity|discriminate|assumption|lia].
Qed.

(** [JSON.parse(JSON.stringify(v))] is [v] cleaned. *)
Lemma parse_stringify (v : value) (text : string) :
  stringify v = Some text -> parse text = Some (clean v).
Proof.
  intros E. unfold parse.
  pose proof (every_value_reads_back v text E (String.length text) "" (le_n _) eq_refl) as H.
  rewrite append_empty in H. now rewrite H.
Qed.

End JSONFacts.

Section TokenFacts.
Import JS Data Exec Jose Route Token.

(** One run of [createToken] on a defined API key: two clock readings,
    one signature, which fails only on an empty key the platform rejects. *)
Lemma createToken_run clientId secret claim cap w st :
  createToken clientId (Some secret) claim cap w st =
  if (List.length (encode (signing_key secret)) =? 0)%nat && negb (accepts_empty_key w)
  then (Threw (Error "DataError" "Zero-length key is not supported"),
        after_signing (encode (signing_key secret)) st)
  else (Returned (signed (header (app_id secret))
                    (claims clientId claim cap
                       (epoch (clock w (reads st)))
                       (epoch (clock w (S (reads st))) + 86400))
                    (encode (signing_key secret))),
        after_signing (encode (signing_key secret)) st).
Proof.
  unfold createToken, setIssuedAt, setExpirationTime, sign, compact_sign, hmac,
    now, world, emit, bind, ret, throw, setProtectedHeader, new_SignJWT,
    signing_key, app_id.
  cbn -[split JSON.stringify Base64url.encode HMAC.sha256 encode Z.add Z.div].
  match goal with |- context [if ?b then _ else _] => destruct b end; reflexivity.
Qed.

Lemma createToken_undefined clientId claim cap w st :
  createToken clientId None claim cap w st
  = (Threw (Error "TypeError" "Cannot read properties of undefined (reading 'split')"), st).
Proof. reflexivity. Qed.

Lemma pieces_signed head body key :
  pieces dot (signed head body key)
  = [b64 (JSON.stringify (VObj head)); b64 (JSON.stringify (VObj body));
     Base64url.encode (HMAC.sha256 key (list_byte_of_string (signing_input head body)))].
Proof.
  unfold signed, signing_input, b64.
  rewrite !append_assoc. cbn [append]. fold dot.
  rewrite pieces_append by apply encode_no_dot.
  rewrite pieces_append by apply encode_no_dot.
  rewrite pieces_free by apply encode_no_dot.
  reflexivity.
Qed.

Lemma decode_object_b64 (members : list (string * value)) :
  decode_object (b64 (JSON.stringify (VObj members)))
  = match JSON.clean (VObj members) with
    | VObj ms => Some ms
    | _ => None
    end.
Proof.
  unfold decode_object, b64.
  destruct (JSON.stringify (VObj members)) as [text|] eqn:E; [|discriminate].
  cbn [encode]. rewrite decode_encode, string_of_list_byte_of_string.
  now rewrite (parse_stringify _ _ E).
Qed.

(** The text of an object starts with a brace, so its base64url is not
    empty. *)
Lemma b64_object (members : list (string * value)) :
  (b64 (JSON.stringify (VObj members)) =? "") = false.
Proof.
  unfold b64, JSON.stringify. rewrite serialize_object. apply encode_cons.
Qed.

Lemma decodeJwt_signed head body key :
  decodeJwt (signed head body key)
  = match JSON.clean (VObj body) with
    | VObj ms => Some ms
    | _ => None
    end.
Proof. unfold decodeJwt. rewrite pieces_signed. apply decode_object_b64. Qed.

Lemma decodeProtectedHeader_signed head body key :
  decodeProtectedHeader (signed head body key)
  = match JSON.clean (VObj head) with
    | VObj ms => Some ms
    | _ => None
    end.
Proof.
  unfold decodeProtectedHeader. rewrite pieces_signed, b64_object. apply decode_object_b64.
Qed.

Lemma text_value_object (members : list (string * value)) :
  exists text, JSON.stringify (VObj members) = Some text
               /\ text_value (JSON.stringify (VObj members)) = VStr text.
Proof. eexists. split; reflexivity. Qed.

(** The claims set reads back as it was written. *)
Lemma decodeJwt_claims head clientId claim cap iat exp key :
  decodeJwt (signed head (claims clientId claim cap iat exp) key)
  = Some (claims clientId claim cap iat exp).
Proof.
  rewrite decodeJwt_signed. unfold claims, capability_value, claim_value.
  destruct (text_value_object (map (fun kv => (fst kv, operations_value (snd kv))) cap))
    as (t1 & _ & ->).
  destruct (text_value_object [("isMod", VBool (isMod claim))]) as (t2 & _ & ->).
  reflexivity.
Qed.

Lemma decodeProtectedHeader_header appId body key :
  decodeProtectedHeader (signed (header (Some appId)) body key) = Some (header (Some appId)).
Proof. rewrite decodeProtectedHeader_signed. reflexivity. Qed.

Lemma token_claim_signed name head clientId claim cap iat exp key :
  token_claim name (signed head (claims clientId claim cap iat exp) key)
  = get_member name (claims clientId claim cap iat exp).
Proof. unfold token_claim. now rewrite decodeJwt_claims. Qed.

(** A capability with every entry defined survives the token. *)
Lemma strings_of_map (l : list string) : strings_of (map VStr l) = Some l.
Proof. induction l as [|x l IH]; cbn [map strings_of]; [reflexivity | now rewrite IH]. Qed.

Lemma clean_strings (l : list string) : JSON.clean (VArr (map VStr l)) = VArr (map VStr l).
Proof.
  cbn [JSON.clean]. f_equal. rewrite map_map. reflexivity.
Qed.

Lemma capability_roundtrip (cap : Capability) :
  Forall (fun kv => snd kv <> None) cap ->
  capability_of_value (JSON.clean (capability_value cap)) = Some cap.
Proof.
  unfold capability_value. rewrite clean_object. cbn [capability_of_value].
  induction 1 as [|[k ops] cap Hk _ IH]; [reflexivity|].
  cbn [snd] in Hk. destruct ops as [l|]; [|congruence].
  cbn [map fst snd operations_value filter].
  change (JSON.defined (k, VArr (map VStr l))) with true. cbn iota.
  cbn [map fst snd]. rewrite clean_strings.
  cbn [entries_of]. rewrite strings_of_map, IH. reflexivity.
Qed.

Lemma token_capability_signed head clientId claim cap iat exp key :
  Forall (fun kv => snd kv <> None) cap ->
  token_capability (signed head (claims clientId claim cap iat exp) key) = Some cap.
Proof.
  intros Hcap. unfold token_capability. rewrite token_claim_signed.
  unfold claims. cbn [get_member String.eqb Ascii.eqb Bool.eqb].
  destruct (text_value_object (map (fun kv => (fst kv, operations_value (snd kv))) cap))
    as (t & E & Et).
  change (VObj (map (fun kv => (fst kv, operations_value (snd kv))) cap))
    with (capability_value cap) in *.
  rewrite Et, (parse_stringify _ _ E). now apply capability_roundtrip.
Qed.

Lemma signed_truthy head body key : truthy (Some (signed head body key)) = true.
Proof.
  unfold truthy, signed, signing_input.
  destruct (b64 (JSON.stringify (VObj head))); reflexivity.
Qed.

(** The three parts of a signed token, and what the third is. *)
Lemma signed_parts head body key :
  exists h p s,
    pieces dot (signed head body key) = [h; p; s]
    /\ Base64url.decode s
       = Some (HMAC.sha256 key (list_byte_of_string (h ++ "." ++ p))).
Proof.
  eexists; eexists; eexists. split; [apply pieces_signed|].
  rewrite decode_encode. reflexivity.
Qed.

End TokenFacts.

Section RouteFacts.
Import JS Data Exec Jose Route Token Handler.

Lemma split_two (A B : string) :
  has_char colon A = false -> has_char colon B = false ->
  split (A ++ ":" ++ B) colon 2 = [A; B].
Proof.
  intros HA HB. unfold split. cbn [append]. fold colon.
  rewrite (pieces_append colon A B HA), (pieces_free colon B HB). reflexivity.
Qed.

Lemma encode_empty (s : string) : List.length (encode (Some s)) = 0 -> s = "".
Proof. destruct s; [reflexivity | discriminate]. Qed.

Lemma encode_nonempty (s : string) :
  s <> "" -> (List.length (encode (Some s)) =? 0)%nat = false.
Proof. destruct s; [congruence | reflexivity]. Qed.

(** The three ways a request ends. *)
Lemma GET_lookup_fails (w : World) (e : error) :
  session w = Threw e ->
  GET w initial
  = (Returned (json [("success", VBool false); ("error", VStr "Internal server error")] 500),
     {| reads := 0; log := [Called_auth; Console_error "Error in Token GET handler:" e] |}).
Proof.
  intros H. unfold GET, try_catch, auth, bind, world, emit, throw, ret. now rewrite H.
Qed.

Lemma GET_no_identity (w : World) (s : option Session) :
  session w = Returned s -> truthy (user_email (session_user s)) = false ->
  GET w initial
  = (Returned (json [("success", VBool false); ("error", VStr "Token generation failed")] 500),
     {| reads := 0; log := [Called_auth; Called_generateCapability {| isMod := false |}] |}).
Proof.
  intros H Hid. unfold GET, try_catch, auth, bind, world, emit, throw, ret. rewrite H.
  cbn [initial reads log app].
  destruct (user_email (session_user s)) as [address|]; [|reflexivity].
  rewrite Hid. cbn [reads log]. now rewrite Hid.
Qed.

Lemma GET_identity (w : World) (s : option Session) (address : string) :
  session w = Returned s -> user_email (session_user s) = Some address -> address <> "" ->
  GET w initial
  = match createToken address (ABLY_SECRET_KEY w) {| isMod := false |}
            (generateCapability {| isMod := false |}) w
            {| reads := 0;
               log := [Called_auth; Called_generateCapability {| isMod := false |};
                       Called_createToken address (ABLY_SECRET_KEY w) {| isMod := false |}
                         (generateCapability {| isMod := false |})] |} with
    | (Returned t, st) =>
        (Returned (if truthy (Some t)
                   then json [("success", VBool true); ("token", VStr t)] 200
                   else json [("success", VBool false);
                              ("error", VStr "Token generation failed")] 500), st)
    | (Threw e, st) =>
        (Returned (json [("success", VBool false); ("error", VStr "Internal server error")] 500),
         {| reads := reads st;
            log := log st ++ [Console_error "Error in Token GET handler:" e] |})
    end.
Proof.
  intros H Hid Hne. unfold GET, try_catch, auth, bind, world, emit, throw, ret. rewrite H.
  cbn [initial reads log app]. rewrite Hid.
  assert (Ht : truthy (Some address) = true).
  { unfold truthy. destruct address; [congruence|reflexivity]. }
  rewrite Ht. cbn [reads log app].
  destruct (createToken _ _ _ _ _ _) as [[t|e] st]; [|reflexivity].
  destruct (truthy (Some t)); reflexivity.
Qed.

Lemma key_check (key : list byte) (accepts : bool) :
  (List.length key =? 0)%nat && negb accepts = true <-> key = [] /\ accepts = false.
Proof.
  destruct key, accepts; cbn; intuition congruence.
Qed.

(** [GET] always answers, in one of the five ways. *)
Lemma GET_ends (w : World) :
  exists r st, GET w initial = (Returned r, st) /\ ends w r (log st).
Proof.
  destruct (session w) as [s|e] eqn:Hs.
  2:{ rewrite (GET_lookup_fails w e Hs). eexists; eexists; split; [reflexivity|].
      now apply lookup_failed. }
  destruct (truthy (user_email (session_user s))) eqn:Ht.
  2:{ rewrite (GET_no_identity w s Hs Ht). eexists; eexists; split; [reflexivity|].
      now apply (no_identity w s). }
  destruct (user_email (session_user s)) as [address|] eqn:Hid; [|discriminate].
  assert (Hne : address <> "") by (intros ->; discriminate Ht).
  rewrite (GET_identity w s address Hs Hid Hne).
  destruct (ABLY_SECRET_KEY w) as [secret|] eqn:Hkey.
  2:{ rewrite createToken_undefined. eexists; eexists; split; [reflexivity|].
      cbn [log]. rewrite <- Hkey. now apply (key_undefined w s). }
  rewrite createToken_run.
  destruct (_ && _) eqn:Hcheck.
  - apply key_check in Hcheck as [Hk Ha].
    eexists; eexists; split; [reflexivity|].
    cbn [log after_signing]. rewrite Hk, <- Hkey, <- app_assoc.
    now apply (key_rejected w s address secret).
  - rewrite signed_truthy. eexists; eexists; split; [reflexivity|].
    cbn [log after_signing]. rewrite <- Hkey.
    apply (issued w s address secret); try assumption.
    destruct (accepts_empty_key w); [now right|left].
    intros Hk. rewrite Hk in Hcheck. discriminate.
Qed.

End RouteFacts.

(** * The claims *)

Section Claims.
Import JS Data Exec Jose Route Token Handler Examples.

(** C1: for every role claim that is not elevated, [generateCapability]
    returns exactly the table of three channels: "chat:general" and
    "chat:random" with subscribe, publish, presence and history,
    "chat:announcements" with subscribe, presence and history.  No channel of
    it is the wildcard and no operation of it is the wildcard. *)
Theorem generateCapability_regular (claim : Claim) :
  isMod claim = false ->
  generateCapability claim
  = [("chat:general", Some ["subscribe"; "publish"; "presence"; "history"]);
     ("chat:random", Some ["subscribe"; "publish"; "presence"; "history"]);
     ("chat:announcements", Some ["subscribe"; "presence"; "history"])]
  /\ ~ In "*" (map fst (generateCapability claim))
  /\ (forall channel ops,
        In (channel, Some ops) (generateCapability claim) -> ~ In "*" ops).
Proof.
  intros H. unfold generateCapability. rewrite H. split; [reflexivity|]. split.
  - cbn [map fst In]. intros [E|[E|[E|[]]]]; discriminate E.
  - intros channel ops Hin. cbn [In] in Hin.
    destruct Hin as [E|[E|[E|[]]]]; injection E as _ <-;
      cbn [In]; intuition discriminate.
Qed.

Lemma generateCapability_regular_witness :
  generateCapability {| isMod := false |}
  = [("chat:general", Some ["subscribe"; "publish"; "presence"; "history"]);
     ("chat:random", Some ["subscribe"; "publish"; "presence"; "history"]);
     ("chat:announcements", Some ["subscribe"; "presence"; "history"])]
  /\ ~ In "*" (map fst (generateCapability {| isMod := false |}))
  /\ (forall channel ops,
        In (channel, Some ops) (generateCapability {| isMod := false |}) -> ~ In "*" ops).
Proof. apply (generateCapability_regular {| isMod := false |}). reflexivity. Defined.

(** C2: for every elevated role claim, [generateCapability] returns the one
    entry from the wildcard channel to the wildcard operation, and nothing
    else. *)
Theorem generateCapability_moderator (claim : Claim) :
  isMod claim = true -> generateCapability claim = [("*", Some ["*"])].
Proof. intros H. unfold generateCapability. now rewrite H. Qed.

Lemma generateCapability_moderator_witness :
  generateCapability {| isMod := true |} = [("*", Some ["*"])].
Proof. apply (generateCapability_moderator {| isMod := true |}). reflexivity. Defined.

Lemma regular_capability_defined :
  Forall (fun kv : string * option (list string) => snd kv <> None)
         (generateCapability regular).
Proof. repeat constructor; discriminate. Qed.

(** What [createToken] returns, when it returns. *)
Lemma createToken_returns clientId apiKey claim cap w st t st' :
  createToken clientId apiKey claim cap w st = (Returned t, st') ->
  exists secret,
    apiKey = Some secret
    /\ t = signed (header (app_id secret))
             (claims clientId claim cap (epoch (clock w (reads st)))
                (epoch (clock w (S (reads st))) + 86400))
             (encode (signing_key secret))
    /\ st' = after_signing (encode (signing_key secret)) st.
Proof.
  destruct apiKey as [secret|]; [|rewrite createToken_undefined; discriminate].
  rewrite createToken_run.
  destruct (_ && _); [discriminate|]. intros [= <- <-]. now exists secret.
Qed.

Lemma issued_token_success (t : string) : issued_token (success t) = Some t.
Proof. reflexivity. Qed.


Ltac in_log H :=
  cbn [calls app In] in H;
  repeat (destruct H as [H|H]); try discriminate H; try contradiction.


(** C4, as the code has it: [createToken] does not look at the shape of the
    secret.  It fails exactly when the second piece of the secret is missing
    or empty and the platform's HMAC rejects a key of no bytes; then it
    throws and there is no token.  Whenever it returns, the token is
    complete: header and claims, signed under that second piece.  Pieces
    after the second are ignored and the first may be empty; a secret with
    no colon has no second piece. *)
Theorem createToken_fails_only_on_empty_key clientId secret claim cap w st :
  ((exists e st', createToken clientId (Some secret) claim cap w st = (Threw e, st'))
   <-> encode (signing_key secret) = [] /\ accepts_empty_key w = false)
  /\ (forall t st',
        createToken clientId (Some secret) claim cap w st = (Returned t, st') ->
        t = signed (header (app_id secret))
              (claims clientId claim cap (epoch (clock w (reads st)))
                 (epoch (clock w (S (reads st))) + 86400))
              (encode (signing_key secret)))
  /\ (has_char colon secret = false -> signing_key secret = None)
  /\ (forall A rest,
        has_char colon A = false ->
        exists B more, pieces colon rest = B :: more /\ has_char colon B = false
                       /\ app_id (A ++ ":" ++ rest) = Some A
                       /\ signing_key (A ++ ":" ++ rest) = Some B).
Proof.
  split; [|split; [|split]].
  - rewrite createToken_run. destruct (_ && _) eqn:Hcheck.
    + apply key_check in Hcheck. split; [intros _; exact Hcheck|]. intros _. eauto.
    + split.
      * intros (e & st' & H). discriminate H.
      * intros H. apply key_check in H. congruence.
  - intros t st' H. apply createToken_returns in H as (secret' & [= <-] & -> & _).
    reflexivity.
  - intros H. unfold signing_key, split. now rewrite (pieces_free colon secret H).
  - intros A rest HA. destruct (pieces_head colon rest) as (B & more & E & HB).
    exists B, more. unfold app_id, signing_key, split. cbn [append]. fold colon.
    rewrite (pieces_append colon A rest HA), E. now repeat split.
Qed.

(** C4: a secret of three pieces, and one with an empty first piece, are
    signed all the same. *)
Lemma createToken_signs_malformed_secrets :
  well_formed "a:b:c" = false
  /\ well_formed ":b" = false
  /\ (exists t st,
        createToken "a@example.com" (Some "a:b:c") regular (generateCapability regular)
          strict_world initial = (Returned t, st)
        /\ token_header "kid" t = Some (VStr "a")
        /\ t = signed (header (Some "a"))
                 (claims "a@example.com" regular (generateCapability regular)
                    1700000000 1700086400)
                 (list_byte_of_string "b"))
  /\ (exists t st,
        createToken "a@example.com" (Some ":b") regular (generateCapability regular)
          strict_world initial = (Returned t, st)
        /\ token_header "kid" t = Some (VStr "")).
Proof.
  split; [reflexivity|]. split; [reflexivity|]. split.
  - eexists; eexists. split; [rewrite createToken_run; reflexivity|]. split.
    + unfold token_header. rewrite decodeProtectedHeader_signed. reflexivity.
    + reflexivity.
  - eexists; eexists. split; [rewrite createToken_run; reflexivity|].
    unfold token_header. rewrite decodeProtectedHeader_signed. reflexivity.
Qed.

Lemma app_id_two (A B : string) :
  has_char colon A = false -> has_char colon B = false ->
  app_id (A ++ ":" ++ B) = Some A /\ signing_key (A ++ ":" ++ B) = Some B.
Proof.
  intros HA HB. unfold app_id, signing_key. now rewrite (split_two A B HA HB).
Qed.

(** C5: for a non-empty identity, a secret [A:B] whose two parts are not
    empty (and, being the parts, hold no colon) and any capability,
    [createToken] returns a token: three parts, the third the HMAC-SHA-256
    of the first two under the bytes of [B], the claims readable and for
    this identity.  Its protected header is [kid] equal to [A] and [alg]
    equal to HS256, and nothing more. *)
Theorem createToken_header clientId A B claim cap w st :
  clientId <> "" -> A <> "" -> B <> "" ->
  has_char colon A = false -> has_char colon B = false ->
  exists token st',
    createToken clientId (Some (A ++ ":" ++ B)) claim cap w st = (Returned token, st')
    /\ token_header "kid" token = Some (VStr A)
    /\ token_header "alg" token = Some (VStr "HS256")
    /\ decodeProtectedHeader token = Some [("kid", VStr A); ("alg", VStr "HS256")]
    /\ (exists h p s,
          pieces dot token = [h; p; s]
          /\ Base64url.decode s
             = Some (HMAC.sha256 (list_byte_of_string B)
                       (list_byte_of_string (h ++ "." ++ p))))
    /\ token_claim "x-ably-clientId" token = Some (VStr clientId).
Proof.
  intros _ _ HB HcA HcB.
  destruct (app_id_two A B HcA HcB) as [Hid Hkey].
  rewrite createToken_run, Hid, Hkey, (encode_nonempty B HB). cbn [andb].
  eexists; eexists. split; [reflexivity|].
  unfold token_header. rewrite decodeProtectedHeader_header.
  split; [reflexivity|]. split; [reflexivity|]. split; [reflexivity|].
  split; [apply signed_parts|]. now rewrite token_claim_signed.
Qed.

Lemma createToken_header_witness :
  exists token st',
    createToken "a@example.com" (Some ("appId.keyId" ++ ":" ++ "s3cr3t")) regular
      (generateCapability regular) strict_world initial = (Returned token, st')
    /\ token_header "kid" token = Some (VStr "appId.keyId")
    /\ token_header "alg" token = Some (VStr "HS256")
    /\ decodeProtectedHeader token
       = Some [("kid", VStr "appId.keyId"); ("alg", VStr "HS256")]
    /\ (exists h p s,
          pieces dot token = [h; p; s]
          /\ Base64url.decode s
             = Some (HMAC.sha256 (list_byte_of_string "s3cr3t")
                       (list_byte_of_string (h ++ "." ++ p))))
    /\ token_claim "x-ably-clientId" token = Some (VStr "a@example.com").
Proof.
  apply (createToken_header "a@example.com" "appId.keyId" "s3cr3t");
    [discriminate|discriminate|discriminate|reflexivity|reflexivity].
Defined.

Lemma generation_failed_log (st : State) :
  log st = [Called_auth; Called_generateCapability regular] ->
  (forall clientId apiKey claim cap,
      ~ In (Called_createToken clientId apiKey claim cap) (log st))
  /\ (forall key, ~ In (Called_sign key) (log st)).
Proof.
  intros ->. split; intros; intros Hin; in_log Hin.
Qed.

(** C6: when the session lookup returns and gives no email (no session, no
    user, or no email), [GET] answers 500 with
    [{ success: false, error: "Token generation failed" }], and neither
    [createToken] nor the signature is called. *)
Theorem GET_without_identity (w : World) (s : option Session) :
  session w = Returned s -> user_email (session_user s) = None ->
  exists st,
    GET w initial
    = (Returned {| status := 500;
                   body := VObj [("success", VBool false);
                                 ("error", VStr "Token generation failed")] |}, st)
    /\ (forall clientId apiKey claim cap,
          ~ In (Called_createToken clientId apiKey claim cap) (log st))
    /\ (forall key, ~ In (Called_sign key) (log st)).
Proof.
  intros Hs Hid. rewrite (GET_no_identity w s Hs) by (now rewrite Hid).
  eexists. split; [reflexivity|]. now apply generation_failed_log.
Qed.

Lemma GET_without_identity_witness :
  exists st,
    GET strict_world initial
    = (Returned {| status := 500;
                   body := VObj [("success", VBool false);
                                 ("error", VStr "Token generation failed")] |}, st)
    /\ (forall clientId apiKey claim cap,
          ~ In (Called_createToken clientId apiKey claim cap) (log st))
    /\ (forall key, ~ In (Called_sign key) (log st)).
Proof. apply (GET_without_identity strict_world None); reflexivity. Defined.

(** C7: with an email in the session and a well-formed secret, [GET]
    answers 200 with [{ success: true, token }]; the capability claim of the
    token decodes to exactly the table of three channels, "chat:general" and
    "chat:random" with subscribe, publish, presence and history,
    "chat:announcements" with subscribe, presence and history, which is what
    [generateCapability] gives a regular user; its client identity is the
    email. *)
Theorem GET_issues_regular_token (w : World) (s : option Session) (address A B : string) :
  session w = Returned s -> user_email (session_user s) = Some address -> address <> "" ->
  ABLY_SECRET_KEY w = Some (A ++ ":" ++ B) ->
  A <> "" -> B <> "" -> has_char colon A = false -> has_char colon B = false ->
  exists t st,
    GET w initial
    = (Returned {| status := 200;
                   body := VObj [("success", VBool true); ("token", VStr t)] |}, st)
    /\ token_capability t
       = Some [("chat:general", Some ["subscribe"; "publish"; "presence"; "history"]);
               ("chat:random", Some ["subscribe"; "publish"; "presence"; "history"]);
               ("chat:announcements", Some ["subscribe"; "presence"; "history"])]
    /\ token_capability t = Some (generateCapability {| isMod := false |})
    /\ token_claim "x-ably-clientId" t = Some (VStr address).
Proof.
  intros Hs Hid Hne Hkey _ HB HcA HcB.
  rewrite (GET_identity w s address Hs Hid Hne), Hkey, createToken_run.
  destruct (app_id_two A B HcA HcB) as [Ha Hk].
  rewrite Ha, Hk, (encode_nonempty B HB). cbn [andb]. rewrite signed_truthy.
  eexists; eexists. split; [reflexivity|].
  rewrite token_capability_signed by apply regular_capability_defined.
  split; [reflexivity|]. split; [reflexivity|].
  rewrite token_claim_signed. reflexivity.
Qed.

Lemma GET_issues_regular_token_witness :
  exists t st,
    GET (signed_in "a@example.com" (Some ("appId.keyId" ++ ":" ++ "s3cr3t"))) initial
    = (Returned {| status := 200;
                   body := VObj [("success", VBool true); ("token", VStr t)] |}, st)
    /\ token_capability t
       = Some [("chat:general", Some ["subscribe"; "publish"; "presence"; "history"]);
               ("chat:random", Some ["subscribe"; "publish"; "presence"; "history"]);
               ("chat:announcements", Some ["subscribe"; "presence"; "history"])]
    /\ token_capability t = Some (generateCapability {| isMod := false |})
    /\ token_claim "x-ably-clientId" t = Some (VStr "a@example.com").
Proof.
  apply (GET_issues_regular_token
           (signed_in "a@example.com" (Some ("appId.keyId" ++ ":" ++ "s3cr3t")))
           (Some {| user := Some {| email := Some "a@example.com";
                                    role := Some "moderator" |} |})
           "a@example.com" "appId.keyId" "s3cr3t");
    [reflexivity|reflexivity|discriminate|reflexivity|discriminate|discriminate
    |reflexivity|reflexivity].
Defined.

(** C8, as the code has it: [setIssuedAt] and [setExpirationTime] each read
    the clock.  In a token [createToken] returns, [iat] is the second of the
    first reading and [exp] the second of the next reading plus 86400; [exp]
    is [iat] plus 86400 exactly when both readings lie in the same second.
    When the clock does not run backwards between the two readings, [exp] is
    at least [iat] plus 86400, and later than that when the readings lie in
    different seconds. *)
Theorem createToken_expiry clientId apiKey claim cap w st t st' :
  createToken clientId apiKey claim cap w st = (Returned t, st') ->
  exists iat exp,
    token_claim "iat" t = Some (VNum iat)
    /\ token_claim "exp" t = Some (VNum exp)
    /\ iat = epoch (clock w (reads st))
    /\ exp = (epoch (clock w (S (reads st))) + 86400)%Z
    /\ (exp = (iat + 86400)%Z <-> epoch (clock w (reads st)) = epoch (clock w (S (reads st))))
    /\ ((clock w (reads st) <= clock w (S (reads st)))%Z -> (iat + 86400 <= exp)%Z)
    /\ ((clock w (reads st) <= clock w (S (reads st)))%Z ->
        epoch (clock w (reads st)) <> epoch (clock w (S (reads st))) ->
        (iat + 86400 < exp)%Z).
Proof.
  intros H. apply createToken_returns in H as (secret & _ & -> & _).
  eexists; eexists. rewrite !token_claim_signed.
  split; [reflexivity|]. split; [reflexivity|]. split; [reflexivity|].
  split; [reflexivity|]. split; [lia|].
  unfold epoch. split; [intros Hle | intros Hle Hne];
    Z.to_euclidean_division_equations; lia.
Qed.

Lemma createToken_expiry_witness :
  exists iat exp,
    token_claim "iat"
      (signed (header (Some "appId.keyId"))
         (claims "a@example.com" regular (generateCapability regular) 1700000000 1700086400)
         (list_byte_of_string "s3cr3t")) = Some (VNum iat)
    /\ token_claim "exp"
         (signed (header (Some "appId.keyId"))
            (claims "a@example.com" regular (generateCapability regular) 1700000000 1700086400)
            (list_byte_of_string "s3cr3t")) = Some (VNum exp)
    /\ iat = epoch (clock strict_world (reads initial))
    /\ exp = (epoch (clock strict_world (S (reads initial))) + 86400)%Z
    /\ (exp = (iat + 86400)%Z
        <-> epoch (clock strict_world (reads initial))
            = epoch (clock strict_world (S (reads initial))))
    /\ ((clock strict_world (reads initial) <= clock strict_world (S (reads initial)))%Z ->
        (iat + 86400 <= exp)%Z)
    /\ ((clock strict_world (reads initial) <= clock strict_world (S (reads initial)))%Z ->
        epoch (clock strict_world (reads initial))
        <> epoch (clock strict_world (S (reads initial))) ->
        (iat + 86400 < exp)%Z).
Proof.
  apply (createToken_expiry "a@example.com" (Some "appId.keyId:s3cr3t") regular
           (generateCapability regular) strict_world initial _
           (after_signing (list_byte_of_string "s3cr3t") initial)).
  rewrite createToken_run. reflexivity.
Defined.

(** C8: the two clock readings of one call, 999 ms and 1000 ms after the
    epoch, lie in different seconds. *)
Lemma createToken_expiry_across_seconds :
  exists t st,
    createToken "a@example.com" (Some "appId.keyId:s3cr3t") regular
      (generateCapability regular) on_the_second initial = (Returned t, st)
    /\ token_claim "iat" t = Some (VNum 0)
    /\ token_claim "exp" t = Some (VNum 86401)
    /\ (86401 <> 0 + 86400)%Z.
Proof.
  eexists; eexists. split; [rewrite createToken_run; reflexivity|].
  rewrite !token_claim_signed. repeat split. discriminate.
Qed.

(** C9: two calls of [createToken] with the same identity, secret, role
    claim and capability, in any two worlds and states (so at any two
    instants), that both return a token: the tokens decode to the same
    capability claim, the text of the capability given, and to the same
    client identity, the one given.  The tokens themselves may differ, as
    they do in the witness. *)
Theorem createToken_same_claims clientId apiKey claim cap w1 st1 w2 st2 t1 st1' t2 st2' :
  createToken clientId apiKey claim cap w1 st1 = (Returned t1, st1') ->
  createToken clientId apiKey claim cap w2 st2 = (Returned t2, st2') ->
  token_claim "x-ably-capability" t1 = token_claim "x-ably-capability" t2
  /\ token_claim "x-ably-capability" t1
     = Some (text_value (JSON.stringify (capability_value cap)))
  /\ token_capability t1 = token_capability t2
  /\ token_claim "x-ably-clientId" t1 = token_claim "x-ably-clientId" t2
  /\ token_claim "x-ably-clientId" t1 = Some (VStr clientId).
Proof.
  intros H1 H2.
  apply createToken_returns in H1 as (secret & -> & -> & _).
  apply createToken_returns in H2 as (secret' & [= <-] & -> & _).
  unfold token_capability. rewrite !token_claim_signed. repeat split.
Qed.

Lemma createToken_same_claims_witness :
  let t1 := handler_token "a@example.com" "appId.keyId:s3cr3t" 1700000000000 1700000000001 in
  let t2 := handler_token "a@example.com" "appId.keyId:s3cr3t" 999 1000 in
  t1 <> t2
  /\ token_claim "x-ably-capability" t1 = token_claim "x-ably-capability" t2
  /\ token_claim "x-ably-capability" t1
     = Some (text_value (JSON.stringify (capability_value (generateCapability regular))))
  /\ token_capability t1 = token_capability t2
  /\ token_claim "x-ably-clientId" t1 = token_claim "x-ably-clientId" t2
  /\ token_claim "x-ably-clientId" t1 = Some (VStr "a@example.com").
Proof.
  split.
  - intros H. apply (f_equal (token_claim "iat")) in H.
    unfold handler_token in H. rewrite !token_claim_signed in H. discriminate H.
  - apply (createToken_same_claims "a@example.com" (Some "appId.keyId:s3cr3t") regular
             (generateCapability regular)
             strict_world initial on_the_second initial
             _ (after_signing (list_byte_of_string "s3cr3t") initial)
             _ (after_signing (list_byte_of_string "s3cr3t") initial));
      rewrite createToken_run; reflexivity.
Defined.

(** C10: a user whose email is the empty string is treated as no user at
    all: the answer is 500 with
    [{ success: false, error: "Token generation failed" }], [createToken]
    and the signature are not called, and response and calls are those of
    the same request with no session. *)
Theorem GET_empty_email (w : World) (s : option Session) :
  session w = Returned s -> user_email (session_user s) = Some "" ->
  exists st,
    GET w initial
    = (Returned {| status := 500;
                   body := VObj [("success", VBool false);
                                 ("error", VStr "Token generation failed")] |}, st)
    /\ (forall clientId apiKey claim cap,
          ~ In (Called_createToken clientId apiKey claim cap) (log st))
    /\ (forall key, ~ In (Called_sign key) (log st))
    /\ GET w initial
       = GET {| session := Returned None; ABLY_SECRET_KEY := ABLY_SECRET_KEY w;
                clock := clock w; accepts_empty_key := accepts_empty_key w |} initial.
Proof.
  intros Hs Hid. rewrite (GET_no_identity w s Hs) by (now rewrite Hid).
  eexists. split; [reflexivity|].
  destruct (generation_failed_log
              {| reads := 0; log := [Called_auth; Called_generateCapability regular] |}
              eq_refl) as [H1 H2].
  split; [exact H1|]. split; [exact H2|].
  symmetry. now apply (GET_no_identity _ None).
Qed.

Lemma GET_empty_email_witness :
  exists st,
    GET (signed_in "" (Some "appId.keyId:s3cr3t")) initial
    = (Returned {| status := 500;
                   body := VObj [("success", VBool false);
                                 ("error", VStr "Token generation failed")] |}, st)
    /\ (forall clientId apiKey claim cap,
          ~ In (Called_createToken clientId apiKey claim cap) (log st))
    /\ (forall key, ~ In (Called_sign key) (log st))
    /\ GET (signed_in "" (Some "appId.keyId:s3cr3t")) initial
       = GET {| session := Returned None;
                ABLY_SECRET_KEY := ABLY_SECRET_KEY (signed_in "" (Some "appId.keyId:s3cr3t"));
                clock := clock (signed_in "" (Some "appId.keyId:s3cr3t"));
                accepts_empty_key :=
                  accepts_empty_key (signed_in "" (Some "appId.keyId:s3cr3t")) |} initial.
Proof.
  apply (GET_empty_email (signed_in "" (Some "appId.keyId:s3cr3t"))
           (Some {| user := Some {| email := Some ""; role := Some "moderator" |} |}));
    reflexivity.
Defined.

(** ** Further properties of the route *)

(** No exception leaves [GET]: every request is answered, in one of the
    five ways of [ends], with status 200 only when a token is issued. *)
Theorem GET_always_answers (w : World) :
  exists r st,
    GET w initial = (Returned r, st) /\ ends w r (log st)
    /\ (status r = 200%Z \/ status r = 500%Z)
    /\ (status r = 200%Z <-> exists t, issued_token r = Some t).
Proof.
  destruct (GET_ends w) as (r & st & E & H). exists r, st.
  split; [exact E|]. split; [exact H|].
  destruct H; cbn [status json internal_error generation_failed success];
    (split; [auto|]); split; try discriminate;
    try (intros [t Ht]; discriminate Ht); eauto using issued_token_success.
Qed.

(** A request with an identity and no [ABLY_SECRET_KEY] in the environment:
    [createToken] is called with [undefined] for the key and throws a
    TypeError on [apiKey.split] before it reads the clock or signs.  That
    error is logged, the calls are those listed and no other, and the answer
    is 500 with "Internal server error". *)
Theorem GET_without_secret (w : World) (s : option Session) (address : string) :
  session w = Returned s -> user_email (session_user s) = Some address -> address <> "" ->
  ABLY_SECRET_KEY w = None ->
  exists message st,
    GET w initial
    = (Returned {| status := 500;
                   body := VObj [("success", VBool false);
                                 ("error", VStr "Internal server error")] |}, st)
    /\ log st
       = [Called_auth;
          Called_generateCapability {| isMod := false |};
          Called_createToken address None {| isMod := false |}
            [("chat:general", Some ["subscribe"; "publish"; "presence"; "history"]);
             ("chat:random", Some ["subscribe"; "publish"; "presence"; "history"]);
             ("chat:announcements", Some ["subscribe"; "presence"; "history"])];
          Console_error "Error in Token GET handler:" (Error "TypeError" message)]
    /\ reads st = 0
    /\ (forall st0,
          createToken address None {| isMod := false |}
            [("chat:general", Some ["subscribe"; "publish"; "presence"; "history"]);
             ("chat:random", Some ["subscribe"; "publish"; "presence"; "history"]);
             ("chat:announcements", Some ["subscribe"; "presence"; "history"])] w st0
          = (Threw (Error "TypeError" message), st0)).
Proof.
  intros Hs Hid Hne Hkey.
  rewrite (GET_identity w s address Hs Hid Hne), Hkey, createToken_undefined.
  eexists; eexists. split; [reflexivity|]. split; [reflexivity|].
  split; [reflexivity|]. intros st0. apply createToken_undefined.
Qed.

Lemma GET_without_secret_witness :
  exists message st,
    GET (signed_in "a@example.com" None) initial
    = (Returned {| status := 500;
                   body := VObj [("success", VBool false);
                                 ("error", VStr "Internal server error")] |}, st)
    /\ log st
       = [Called_auth;
          Called_generateCapability {| isMod := false |};
          Called_createToken "a@example.com" None {| isMod := false |}
            [("chat:general", Some ["subscribe"; "publish"; "presence"; "history"]);
             ("chat:random", Some ["subscribe"; "publish"; "presence"; "history"]);
             ("chat:announcements", Some ["subscribe"; "presence"; "history"])];
          Console_error "Error in Token GET handler:" (Error "TypeError" message)]
    /\ reads st = 0
    /\ (forall st0,
          createToken "a@example.com" None {| isMod := false |}
            [("chat:general", Some ["subscribe"; "publish"; "presence"; "history"]);
             ("chat:random", Some ["subscribe"; "publish"; "presence"; "history"]);
             ("chat:announcements", Some ["subscribe"; "presence"; "history"])]
            (signed_in "a@example.com" None) st0
          = (Threw (Error "TypeError" message), st0)).
Proof.
  apply (GET_without_secret (signed_in "a@example.com" None)
           (Some {| user := Some {| email := Some "a@example.com";
                                    role := Some "moderator" |} |})
           "a@example.com");
    [reflexivity|reflexivity|discriminate|reflexivity].
Defined.

(** The role claim travels in the token under "ably.channel.*" as JSON
    text, and parses back to the object with the one member [isMod]. *)
Theorem createToken_role_claim clientId apiKey claim cap w st t st' :
  createToken clientId apiKey claim cap w st = (Returned t, st') ->
  exists text,
    token_claim "ably.channel.*" t = Some (VStr text)
    /\ JSON.stringify (claim_value claim) = Some text
    /\ JSON.parse text = Some (VObj [("isMod", VBool (isMod claim))]).
Proof.
  intros H. apply createToken_returns in H as (secret & _ & -> & _).
  rewrite token_claim_signed.
  destruct (text_value_object [("isMod", VBool (isMod claim))]) as (text & E & Et).
  exists text. unfold claims, claim_value.
  cbn [get_member String.eqb Ascii.eqb Bool.eqb]. rewrite Et.
  split; [reflexivity|]. split; [exact E|].
  now rewrite (parse_stringify _ _ E).
Qed.

Lemma createToken_role_claim_witness :
  exists text,
    token_claim "ably.channel.*"
      (handler_token "a@example.com" "appId.keyId:s3cr3t" 1700000000000 1700000000001)
    = Some (VStr text)
    /\ JSON.stringify (claim_value regular) = Some text
    /\ JSON.parse text = Some (VObj [("isMod", VBool (isMod regular))]).
Proof.
  apply (createToken_role_claim "a@example.com" (Some "appId.keyId:s3cr3t") regular
           (generateCapability regular) strict_world initial _
           (after_signing (list_byte_of_string "s3cr3t") initial)).
  rewrite createToken_run. reflexivity.
Defined.

End Claims.

(** * More of the route *)

Section Coverage.
Import JS Data Exec Jose Route Token Handler Examples Further.

(** The first piece is the text before the first separator. *)
Lemma pieces_first (sep : ascii) (s : string) :
  exists p ps,
    pieces sep s = p :: ps /\ has_char sep p = false
    /\ (s = p \/ exists rest, s = p ++ String sep rest).
Proof.
  induction s as [|x s (p & ps & E & F & G)]; cbn [pieces].
  - exists "", []. auto.
  - destruct (Ascii.eqb x sep) eqn:Hx.
    + apply Ascii.eqb_eq in Hx. subst x.
      exists "", (pieces sep s). repeat split. right. now exists s.
    + rewrite E. exists (String x p), ps. split; [reflexivity|]. split.
      * cbn [has_char]. now rewrite Hx, F.
      * destruct G as [->|(rest & ->)]; [now left|right]. now exists rest.
Qed.

Lemma app_id_first (secret : string) :
  exists p, app_id secret = Some p /\ has_char colon p = false
            /\ (secret = p \/ exists rest, secret = p ++ ":" ++ rest).
Proof.
  destruct (pieces_first colon secret) as (p & ps & E & F & G).
  exists p. unfold app_id, split. rewrite E. repeat split; assumption.
Qed.

Lemma signing_key_colon (secret : string) :
  signing_key secret = None <-> has_char colon secret = false.
Proof.
  split.
  - destruct (pieces_first colon secret) as (p & ps & E & F & G).
    unfold signing_key, split. rewrite E.
    destruct G as [->|(rest & ->)]; [auto|].
    intros H. exfalso. fold colon in E. rewrite (pieces_append colon p rest F) in E.
    injection E as <-.
    destruct (pieces_first colon rest) as (q & qs & E' & _). rewrite E' in H. discriminate.
  - intros H. unfold signing_key, split. now rewrite (pieces_free colon secret H).
Qed.

Lemma capability_granted (cap : Capability) :
  capability_of_value (JSON.clean (capability_value cap)) = Some (granted cap).
Proof.
  unfold capability_value, granted. rewrite clean_object. cbn [capability_of_value].
  induction cap as [|[k ops] cap IH]; [reflexivity|].
  destruct ops as [l|]; cbn [map fst snd operations_value filter].
  - change (JSON.defined (k, VArr (map VStr l))) with true. cbn iota.
    cbn [map fst snd]. rewrite clean_strings.
    cbn [entries_of]. rewrite strings_of_map, IH. reflexivity.
  - change (JSON.defined (k, VUndefined)) with false. cbn iota. exact IH.
Qed.

Lemma token_capability_granted head clientId claim cap iat exp key :
  token_capability (signed head (claims clientId claim cap iat exp) key) = Some (granted cap).
Proof.
  unfold token_capability. rewrite token_claim_signed.
  unfold claims. cbn [get_member String.eqb Ascii.eqb Bool.eqb].
  destruct (text_value_object (map (fun kv => (fst kv, operations_value (snd kv))) cap))
    as (t & E & Et).
  change (VObj (map (fun kv => (fst kv, operations_value (snd kv))) cap))
    with (capability_value cap) in *.
  rewrite Et, (parse_stringify _ _ E). apply capability_granted.
Qed.

Ltac among H :=
  cbn [calls app In] in H;
  repeat (destruct H as [H|H]); try discriminate H; try contradiction.

(** [GET], lines 77-80 and 105-108: when [auth()] rejects, the error is
    logged and the answer is 500 "Internal server error"; the capability is
    not computed, [createToken] is not called and nothing is signed. *)
Theorem GET_lookup_throws (w : World) (e : error) :
  session w = Threw e ->
  exists st,
    GET w initial
    = (Returned {| status := 500;
                   body := VObj [("success", VBool false);
                                 ("error", VStr "Internal server error")] |}, st)
    /\ In (Console_error "Error in Token GET handler:" e) (log st)
    /\ (forall claim, ~ In (Called_generateCapability claim) (log st))
    /\ (forall clientId apiKey claim cap,
          ~ In (Called_createToken clientId apiKey claim cap) (log st))
    /\ (forall key, ~ In (Called_sign key) (log st)).
Proof.
  intros H. rewrite (GET_lookup_fails w e H). eexists. split; [reflexivity|].
  cbn [log]. split; [right; left; reflexivity|].
  repeat split; intros; intros Hin; among Hin.
Qed.

Lemma GET_lookup_throws_witness :
  exists st,
    GET lookup_down initial
    = (Returned {| status := 500;
                   body := VObj [("success", VBool false);
                                 ("error", VStr "Internal server error")] |}, st)
    /\ In (Console_error "Error in Token GET handler:" (Error "Error" "fetch failed")) (log st)
    /\ (forall claim, ~ In (Called_generateCapability claim) (log st))
    /\ (forall clientId apiKey claim cap,
          ~ In (Called_createToken clientId apiKey claim cap) (log st))
    /\ (forall key, ~ In (Called_sign key) (log st)).
Proof. apply (GET_lookup_throws lookup_down (Error "Error" "fetch failed")). reflexivity. Defined.

(** [GET] with [createToken], lines 31, 50 and 89-108: a secret with no
    signing material (no colon, or nothing between the first colon and the
    next) on a platform that rejects an empty key.  [createToken] is called,
    reads the clock twice and attempts one signature, with the empty key;
    the signature fails and [createToken] throws.  The error it throws is
    the one logged, and the answer is 500 "Internal server error", not
    "Token generation failed". *)
Theorem GET_rejected_key (w : World) (s : option Session) (address secret : string) :
  session w = Returned s -> user_email (session_user s) = Some address -> address <> "" ->
  ABLY_SECRET_KEY w = Some secret ->
  encode (signing_key secret) = [] -> accepts_empty_key w = false ->
  exists e st,
    GET w initial
    = (Returned {| status := 500;
                   body := VObj [("success", VBool false);
                                 ("error", VStr "Internal server error")] |}, st)
    /\ log st
       = [Called_auth;
          Called_generateCapability {| isMod := false |};
          Called_createToken address (Some secret) {| isMod := false |}
            [("chat:general", Some ["subscribe"; "publish"; "presence"; "history"]);
             ("chat:random", Some ["subscribe"; "publish"; "presence"; "history"]);
             ("chat:announcements", Some ["subscribe"; "presence"; "history"])];
          Called_sign [];
          Console_error "Error in Token GET handler:" e]
    /\ reads st = 2
    /\ (forall st0,
          createToken address (Some secret) {| isMod := false |}
            [("chat:general", Some ["subscribe"; "publish"; "presence"; "history"]);
             ("chat:random", Some ["subscribe"; "publish"; "presence"; "history"]);
             ("chat:announcements", Some ["subscribe"; "presence"; "history"])] w st0
          = (Threw e, {| reads := S (S (reads st0)); log := log st0 ++ [Called_sign []] |})).
Proof.
  intros Hs Hid Hne Hkey Hk Ha.
  rewrite (GET_identity w s address Hs Hid Hne), Hkey, createToken_run, Hk, Ha.
  cbn [List.length Nat.eqb negb andb].
  eexists; eexists. split; [reflexivity|]. split; [reflexivity|]. split; [reflexivity|].
  intros st0. rewrite createToken_run, Hk, Ha. reflexivity.
Qed.

Lemma GET_rejected_key_witness :
  exists e st,
    GET (request "a@example.com" None (Some "abc") false) initial
    = (Returned {| status := 500;
                   body := VObj [("success", VBool false);
                                 ("error", VStr "Internal server error")] |}, st)
    /\ log st
       = [Called_auth;
          Called_generateCapability {| isMod := false |};
          Called_createToken "a@example.com" (Some "abc") {| isMod := false |}
            [("chat:general", Some ["subscribe"; "publish"; "presence"; "history"]);
             ("chat:random", Some ["subscribe"; "publish"; "presence"; "history"]);
             ("chat:announcements", Some ["subscribe"; "presence"; "history"])];
          Called_sign [];
          Console_error "Error in Token GET handler:" e]
    /\ reads st = 2
    /\ (forall st0,
          createToken "a@example.com" (Some "abc") {| isMod := false |}
            [("chat:general", Some ["subscribe"; "publish"; "presence"; "history"]);
             ("chat:random", Some ["subscribe"; "publish"; "presence"; "history"]);
             ("chat:announcements", Some ["subscribe"; "presence"; "history"])]
            (request "a@example.com" None (Some "abc") false) st0
          = (Threw e, {| reads := S (S (reads st0)); log := log st0 ++ [Called_sign []] |})).
Proof.
  apply (GET_rejected_key (request "a@example.com" None (Some "abc") false)
           (Some {| user := Some {| email := Some "a@example.com"; role := None |} |})
           "a@example.com" "abc");
    [reflexivity|reflexivity|discriminate|reflexivity|reflexivity|reflexivity].
Defined.

Lemma truthy_address (address : string) : address <> "" -> truthy (Some address) = true.
Proof. destruct address; [congruence|reflexivity]. Qed.

(** [GET], lines 89-103: which answer comes from which cause.  "Token
    generation failed" is given exactly when the session has no usable
    email, so never for a failure of [createToken]; the token is given
    exactly when there is an email, the secret is defined and the signature
    goes through. *)
Theorem GET_answer_by_cause (w : World) :
  (fst (GET w initial) = Returned generation_failed
   <-> exists s, session w = Returned s /\ truthy (user_email (session_user s)) = false)
  /\ ((exists t, fst (GET w initial) = Returned (success t))
      <-> exists s address secret,
            session w = Returned s /\ user_email (session_user s) = Some address
            /\ address <> "" /\ ABLY_SECRET_KEY w = Some secret
            /\ (encode (signing_key secret) <> [] \/ accepts_empty_key w = true)).
Proof.
  destruct (GET_ends w) as (r & st & E & H). rewrite E. cbn [fst].
  destruct H as [e Hs | s Hs Hid | s address Hs Hid Hne Hkey
                 | s address secret Hs Hid Hne Hkey Hk Ha
                 | s address secret Hs Hid Hne Hkey Hok]; split; split.
  - discriminate.
  - intros (s' & Hs' & _). congruence.
  - intros (t & Ht). discriminate Ht.
  - intros (s' & a & k & Hs' & _). congruence.
  - intros _. now exists s.
  - reflexivity.
  - intros (t & Ht). discriminate Ht.
  - intros (s' & a & k & Hs' & Hid' & Hne' & _).
    assert (s' = s) by congruence. subst s'. rewrite Hid' in Hid.
    rewrite (truthy_address a Hne') in Hid. discriminate.
  - discriminate.
  - intros (s' & Hs' & Hid'). assert (s' = s) by congruence. subst s'.
    rewrite Hid, (truthy_address address Hne) in Hid'. discriminate.
  - intros (t & Ht). discriminate Ht.
  - intros (s' & a & k & _ & _ & _ & Hkey' & _). congruence.
  - discriminate.
  - intros (s' & Hs' & Hid'). assert (s' = s) by congruence. subst s'.
    rewrite Hid, (truthy_address address Hne) in Hid'. discriminate.
  - intros (t & Ht). discriminate Ht.
  - intros (s' & a & k & _ & _ & _ & Hkey' & [Hok|Hok]).
    + assert (k = secret) by congruence. subst k. contradiction.
    + congruence.
  - intros Ht. discriminate Ht.
  - intros (s' & Hs' & Hid'). assert (s' = s) by congruence. subst s'.
    rewrite Hid, (truthy_address address Hne) in Hid'. discriminate.
  - intros _. exists s, address, secret. auto.
  - intros _. eauto.
Qed.

(** [createToken], lines 35-48: the claims set of a token is exactly the
    five members the code writes, in that order: the capability as JSON
    text, the client identity, the role claim as JSON text, [iat], [exp];
    reading the token back gives them and nothing else. *)
Theorem createToken_claims_set clientId apiKey claim cap w st t st' :
  createToken clientId apiKey claim cap w st = (Returned t, st') ->
  exists capability_text role_text iat exp,
    JSON.stringify (capability_value cap) = Some capability_text
    /\ JSON.stringify (claim_value claim) = Some role_text
    /\ decodeJwt t
       = Some [("x-ably-capability", VStr capability_text);
               ("x-ably-clientId", VStr clientId);
               ("ably.channel.*", VStr role_text);
               ("iat", VNum iat);
               ("exp", VNum exp)].
Proof.
  intros H. apply createToken_returns in H as (secret & _ & -> & _).
  rewrite decodeJwt_claims. unfold claims, capability_value, claim_value.
  destruct (text_value_object (map (fun kv => (fst kv, operations_value (snd kv))) cap))
    as (t1 & E1 & ->).
  destruct (text_value_object [("isMod", VBool (isMod claim))]) as (t2 & E2 & ->).
  exists t1, t2. eexists; eexists. repeat split; assumption.
Qed.

Lemma createToken_claims_set_witness :
  exists capability_text role_text iat exp,
    JSON.stringify (capability_value (generateCapability regular)) = Some capability_text
    /\ JSON.stringify (claim_value regular) = Some role_text
    /\ decodeJwt
         (handler_token "a@example.com" "appId.keyId:s3cr3t" 1700000000000 1700000000001)
       = Some [("x-ably-capability", VStr capability_text);
               ("x-ably-clientId", VStr "a@example.com");
               ("ably.channel.*", VStr role_text);
               ("iat", VNum iat);
               ("exp", VNum exp)].
Proof.
  apply (createToken_claims_set "a@example.com" (Some "appId.keyId:s3cr3t") regular
           (generateCapability regular) strict_world initial _
           (after_signing (list_byte_of_string "s3cr3t") initial)).
  rewrite createToken_run. reflexivity.
Defined.

(** [createToken], lines 31 and 50: the token is three parts joined by
    dots, and the third is the HMAC-SHA-256, under the bytes of the second
    piece of the secret, of the first two parts with their dot. *)
Theorem createToken_signature clientId secret claim cap w st t st' :
  createToken clientId (Some secret) claim cap w st = (Returned t, st') ->
  exists h p s,
    t = h ++ "." ++ p ++ "." ++ s
    /\ pieces dot t = [h; p; s]
    /\ Base64url.decode s
       = Some (HMAC.sha256 (encode (signing_key secret))
                 (list_byte_of_string (h ++ "." ++ p))).
Proof.
  intros H. apply createToken_returns in H as (secret' & [= <-] & -> & _).
  eexists; eexists; eexists. split; [|split].
  - unfold signed, signing_input. rewrite append_assoc. reflexivity.
  - apply pieces_signed.
  - rewrite decode_encode. reflexivity.
Qed.

Lemma createToken_signature_witness :
  exists h p s,
    handler_token "a@example.com" "appId.keyId:s3cr3t" 1700000000000 1700000000001
    = h ++ "." ++ p ++ "." ++ s
    /\ pieces dot
         (handler_token "a@example.com" "appId.keyId:s3cr3t" 1700000000000 1700000000001)
       = [h; p; s]
    /\ Base64url.decode s
       = Some (HMAC.sha256 (encode (signing_key "appId.keyId:s3cr3t"))
                 (list_byte_of_string (h ++ "." ++ p))).
Proof.
  apply (createToken_signature "a@example.com" "appId.keyId:s3cr3t" regular
           (generateCapability regular) strict_world initial _
           (after_signing (list_byte_of_string "s3cr3t") initial)).
  rewrite createToken_run. reflexivity.
Defined.

(** [createToken], lines 31 and 44: whatever the secret, a token that is
    returned has three parts, signed under the second piece of the secret,
    and its protected header has the two members [kid] and [alg] only, with
    [kid] the text of the secret before its first colon.  For a secret with
    no colon that text is the whole secret. *)
Theorem createToken_kid clientId secret claim cap w st t st' :
  createToken clientId (Some secret) claim cap w st = (Returned t, st') ->
  exists p,
    decodeProtectedHeader t = Some [("kid", VStr p); ("alg", VStr "HS256")]
    /\ has_char colon p = false
    /\ (secret = p \/ exists rest, secret = p ++ ":" ++ rest)
    /\ (exists h b s,
          pieces dot t = [h; b; s]
          /\ Base64url.decode s
             = Some (HMAC.sha256 (encode (signing_key secret))
                       (list_byte_of_string (h ++ "." ++ b))))
    /\ token_claim "x-ably-clientId" t = Some (VStr clientId).
Proof.
  intros H. apply createToken_returns in H as (secret' & [= <-] & -> & _).
  destruct (app_id_first secret) as (p & -> & Hp & Hs).
  exists p. split; [apply decodeProtectedHeader_header|].
  split; [exact Hp|]. split; [exact Hs|]. split; [apply signed_parts|].
  now rewrite token_claim_signed.
Qed.

Lemma createToken_kid_witness :
  exists p,
    decodeProtectedHeader
      (signed (header (Some "abc"))
         (claims "a@example.com" regular (generateCapability regular) 1700000000 1700086400)
         [])
    = Some [("kid", VStr p); ("alg", VStr "HS256")]
    /\ has_char colon p = false
    /\ ("abc" = p \/ exists rest, "abc" = p ++ ":" ++ rest)
    /\ (exists h b s,
          pieces dot
            (signed (header (Some "abc"))
               (claims "a@example.com" regular (generateCapability regular)
                  1700000000 1700086400)
               [])
          = [h; b; s]
          /\ Base64url.decode s
             = Some (HMAC.sha256 (encode (signing_key "abc"))
                       (list_byte_of_string (h ++ "." ++ b))))
    /\ token_claim "x-ably-clientId"
         (signed (header (Some "abc"))
            (claims "a@example.com" regular (generateCapability regular)
               1700000000 1700086400)
            [])
       = Some (VStr "a@example.com").
Proof.
  apply (createToken_kid "a@example.com" "abc" regular (generateCapability regular)
           (request "a@example.com" None (Some "abc") true) initial _
           (after_signing [] initial)).
  rewrite createToken_run. reflexivity.
Defined.

(** [createToken], lines 27 and 37: the capability read back from a token
    is the capability given, entry by entry and in order, without the
    entries whose value is [undefined]. *)
Theorem createToken_capability clientId apiKey claim cap w st t st' :
  createToken clientId apiKey claim cap w st = (Returned t, st') ->
  token_capability t = Some (granted cap).
Proof.
  intros H. apply createToken_returns in H as (secret & _ & -> & _).
  apply token_capability_granted.
Qed.

Lemma createToken_capability_witness :
  token_capability
    (signed (header (Some "appId.keyId"))
       (claims "a@example.com" regular
          [("chat:general", Some ["subscribe"; "publish"]); ("chat:random", None)]
          1700000000 1700086400)
       (list_byte_of_string "s3cr3t"))
  = Some (granted [("chat:general", Some ["subscribe"; "publish"]); ("chat:random", None)]).
Proof.
  apply (createToken_capability "a@example.com" (Some "appId.keyId:s3cr3t") regular
           [("chat:general", Some ["subscribe"; "publish"]); ("chat:random", None)]
           strict_world initial _ (after_signing (list_byte_of_string "s3cr3t") initial)).
  rewrite createToken_run. reflexivity.
Defined.

Lemma generateCapability_granted (claim : Claim) :
  granted (generateCapability claim) = generateCapability claim.
Proof. destruct claim as [[]]; reflexivity. Qed.

(** [generateCapability] into [createToken], lines 60-72 and 35-42: for
    either role, the token made from the capability of the role reads back
    as that capability; it is the wildcard grant exactly when the role is
    moderator. *)
Theorem createToken_after_generateCapability clientId apiKey claim w st t st' :
  createToken clientId apiKey claim (generateCapability claim) w st = (Returned t, st') ->
  token_capability t = Some (generateCapability claim)
  /\ (token_capability t = Some [("*", Some ["*"])] <-> isMod claim = true).
Proof.
  intros H. apply createToken_returns in H as (secret & _ & -> & _).
  rewrite token_capability_granted, generateCapability_granted.
  split; [reflexivity|].
  destruct claim as [[]]; cbn [generateCapability isMod]; split; intros E;
    try reflexivity; discriminate E.
Qed.

Lemma createToken_after_generateCapability_witness :
  token_capability
    (signed (header (Some "appId.keyId"))
       (claims "mod@example.com" {| isMod := true |} (generateCapability {| isMod := true |})
          1700000000 1700086400)
       (list_byte_of_string "s3cr3t"))
  = Some (generateCapability {| isMod := true |})
  /\ (token_capability
        (signed (header (Some "appId.keyId"))
           (claims "mod@example.com" {| isMod := true |}
              (generateCapability {| isMod := true |}) 1700000000 1700086400)
           (list_byte_of_string "s3cr3t"))
      = Some [("*", Some ["*"])] <-> isMod {| isMod := true |} = true).
Proof.
  apply (createToken_after_generateCapability "mod@example.com" (Some "appId.keyId:s3cr3t")
           {| isMod := true |} strict_world initial _
           (after_signing (list_byte_of_string "s3cr3t") initial)).
  rewrite createToken_run. reflexivity.
Defined.

(** [createToken], line 39: tokens made for different identities are
    different tokens, whatever the secrets, roles, capabilities and
    instants. *)
Theorem createToken_distinguishes_identities
  id1 id2 key1 key2 claim1 claim2 cap1 cap2 w1 st1 w2 st2 t1 st1' t2 st2' :
  createToken id1 key1 claim1 cap1 w1 st1 = (Returned t1, st1') ->
  createToken id2 key2 claim2 cap2 w2 st2 = (Returned t2, st2') ->
  id1 <> id2 -> t1 <> t2.
Proof.
  intros H1 H2 Hne E.
  apply createToken_returns in H1 as (secret1 & _ & -> & _).
  apply createToken_returns in H2 as (secret2 & _ & -> & _).
  apply (f_equal (token_claim "x-ably-clientId")) in E.
  rewrite !token_claim_signed in E. cbn in E. congruence.
Qed.

Lemma createToken_distinguishes_identities_witness :
  handler_token "a@example.com" "appId.keyId:s3cr3t" 1700000000000 1700000000001
  <> handler_token "b@example.com" "appId.keyId:s3cr3t" 1700000000000 1700000000001.
Proof.
  apply (createToken_distinguishes_identities "a@example.com" "b@example.com"
           (Some "appId.keyId:s3cr3t") (Some "appId.keyId:s3cr3t") regular regular
           (generateCapability regular) (generateCapability regular)
           strict_world initial strict_world initial
           _ (after_signing (list_byte_of_string "s3cr3t") initial)
           _ (after_signing (list_byte_of_string "s3cr3t") initial));
    [rewrite createToken_run; reflexivity | rewrite createToken_run; reflexivity
    | discriminate].
Defined.

(** [createToken], lines 46-48: with a clock that does not run backwards
    between the two readings, a token lives at least 24 hours; when the
    readings are less than a second apart, at most one second more. *)
Theorem createToken_lifetime clientId apiKey claim cap w st t st' :
  createToken clientId apiKey claim cap w st = (Returned t, st') ->
  (clock w (reads st) <= clock w (S (reads st)))%Z ->
  exists iat exp,
    token_claim "iat" t = Some (VNum iat)
    /\ token_claim "exp" t = Some (VNum exp)
    /\ (iat + 86400 <= exp)%Z
    /\ ((clock w (S (reads st)) - clock w (reads st) < 1000)%Z -> (exp <= iat + 86401)%Z).
Proof.
  intros H Hclock. apply createToken_returns in H as (secret & _ & -> & _).
  eexists; eexists. rewrite !token_claim_signed.
  split; [reflexivity|]. split; [reflexivity|].
  unfold epoch. split; [|intros Hnear]; Z.to_euclidean_division_equations; lia.
Qed.

Lemma createToken_lifetime_witness :
  exists iat exp,
    token_claim "iat"
      (handler_token "a@example.com" "appId.keyId:s3cr3t" 999 1000) = Some (VNum iat)
    /\ token_claim "exp"
         (handler_token "a@example.com" "appId.keyId:s3cr3t" 999 1000) = Some (VNum exp)
    /\ (iat + 86400 <= exp)%Z
    /\ ((clock on_the_second (S (reads initial)) - clock on_the_second (reads initial) < 1000)%Z
        -> (exp <= iat + 86401)%Z).
Proof.
  apply (createToken_lifetime "a@example.com" (Some "appId.keyId:s3cr3t") regular
           (generateCapability regular) on_the_second initial _
           (after_signing (list_byte_of_string "s3cr3t") initial)).
  - rewrite createToken_run. reflexivity.
  - cbn. lia.
Defined.

(** [GET], lines 79-96: of the session the handler reads the email and
    nothing else.  Two requests whose sessions give the same email, under
    the same secret, clock and platform, get the same answer and make the
    same calls, whatever the role of the user. *)
Theorem GET_reads_only_the_email (w1 w2 : World) (s1 s2 : option Session) :
  session w1 = Returned s1 -> session w2 = Returned s2 ->
  user_email (session_user s1) = user_email (session_user s2) ->
  ABLY_SECRET_KEY w1 = ABLY_SECRET_KEY w2 ->
  (forall n, clock w1 n = clock w2 n) ->
  accepts_empty_key w1 = accepts_empty_key w2 ->
  GET w1 initial = GET w2 initial.
Proof.
  intros H1 H2 Hid Hkey Hclock Ha.
  destruct (truthy (user_email (session_user s1))) eqn:Ht.
  - destruct (user_email (session_user s1)) as [address|] eqn:E1; [|discriminate].
    assert (Hne : address <> "") by (intros ->; discriminate Ht).
    rewrite (GET_identity w1 s1 address H1 E1 Hne).
    rewrite (GET_identity w2 s2 address H2 (eq_sym Hid) Hne).
    rewrite <- Hkey. destruct (ABLY_SECRET_KEY w1) as [secret|].
    + rewrite !createToken_run. cbn [reads]. now rewrite <- !Hclock, <- Ha.
    + now rewrite !createToken_undefined.
  - rewrite (GET_no_identity w1 s1 H1 Ht).
    rewrite Hid in Ht. now rewrite (GET_no_identity w2 s2 H2 Ht).
Qed.

Lemma GET_reads_only_the_email_witness :
  GET (request "a@example.com" (Some "moderator") (Some "appId.keyId:s3cr3t") false) initial
  = GET (request "a@example.com" None (Some "appId.keyId:s3cr3t") false) initial.
Proof.
  apply (GET_reads_only_the_email
           (request "a@example.com" (Some "moderator") (Some "appId.keyId:s3cr3t") false)
           (request "a@example.com" None (Some "appId.keyId:s3cr3t") false)
           (Some {| user := Some {| email := Some "a@example.com";
                                    role := Some "moderator" |} |})
           (Some {| user := Some {| email := Some "a@example.com"; role := None |} |}));
    reflexivity.
Defined.

(** [GET] with [createToken], lines 31, 44, 50 and 89-99: a secret with no
    colon on a platform whose HMAC accepts an empty key.  [appId] is then the
    whole secret and [signingKey] is [undefined]: the answer is 200 with a
    token of three parts whose third part is the HMAC-SHA-256 of the first
    two under the key of no bytes, and whose protected header is [kid], the
    whole secret, and [alg]. *)
Theorem GET_publishes_colonless_secret
  (w : World) (s : option Session) (address secret : string) :
  session w = Returned s -> user_email (session_user s) = Some address -> address <> "" ->
  ABLY_SECRET_KEY w = Some secret -> has_char colon secret = false ->
  accepts_empty_key w = true ->
  exists t st,
    GET w initial
    = (Returned {| status := 200;
                   body := VObj [("success", VBool true); ("token", VStr t)] |}, st)
    /\ decodeProtectedHeader t = Some [("kid", VStr secret); ("alg", VStr "HS256")]
    /\ token_header "kid" t = Some (VStr secret)
    /\ (exists h b sig,
          pieces dot t = [h; b; sig]
          /\ Base64url.decode sig
             = Some (HMAC.sha256 [] (list_byte_of_string (h ++ "." ++ b))))
    /\ In (Called_sign []) (log st).
Proof.
  intros Hs Hid Hne Hkey Hc Ha.
  rewrite (GET_identity w s address Hs Hid Hne), Hkey, createToken_run, Ha.
  assert (Hk : signing_key secret = None) by (now apply signing_key_colon).
  assert (Hi : app_id secret = Some secret).
  { unfold app_id, split. now rewrite (pieces_free colon secret Hc). }
  rewrite Hk, Hi. cbn [encode List.length Nat.eqb negb andb]. rewrite signed_truthy.
  eexists; eexists. split; [reflexivity|].
  unfold token_header. rewrite decodeProtectedHeader_header.
  split; [reflexivity|]. split; [reflexivity|]. split; [apply signed_parts|].
  cbn [log after_signing app]. do 3 right. left. reflexivity.
Qed.

Lemma GET_publishes_colonless_secret_witness :
  exists t st,
    GET (request "a@example.com" None (Some "abc") true) initial
    = (Returned {| status := 200;
                   body := VObj [("success", VBool true); ("token", VStr t)] |}, st)
    /\ decodeProtectedHeader t = Some [("kid", VStr "abc"); ("alg", VStr "HS256")]
    /\ token_header "kid" t = Some (VStr "abc")
    /\ (exists h b sig,
          pieces dot t = [h; b; sig]
          /\ Base64url.decode sig
             = Some (HMAC.sha256 [] (list_byte_of_string (h ++ "." ++ b))))
    /\ In (Called_sign []) (log st).
Proof.
  apply (GET_publishes_colonless_secret (request "a@example.com" None (Some "abc") true)
           (Some {| user := Some {| email := Some "a@example.com"; role := None |} |})
           "a@example.com" "abc");
    [reflexivity|reflexivity|discriminate|reflexivity|reflexivity|reflexivity].
Defined.

End Coverage.
